(** * badger_explorer_core: key-space query engine and chunked-write sessions

    A shallow embedding of [db.DBClient] (the query engine [ListKeys], the
    value classifier [isBinary], the point operations [GetValue], [SetValue],
    [DeleteKey]) and of [api.Handler] (the line dispatcher [handleLine] and the
    three-phase upload protocol [put_value] / [put_chunk] / [put_commit]),
    with the properties that the design document states about them.  Part III
    adds the backups of [db] ([BackupValue], [sanitizeFilename]), the store
    commands of the screens ([saveValueCmd], [deleteKeyCmd], [saveCmd]) and
    the recent-store list of [config], with properties read off the code.

    Conventions.
    - A Go [string] and a Badger key are byte sequences: [string] of the
      standard library ([ascii] is one byte), compared with [String.compare],
      which is the unsigned bytewise lexicographic order of Go's [<] on
      strings and of [bytes.Compare].
    - A Go [[]byte] value is a [list byte].
    - A Go [int] is a [Z].  The two counters of [ListKeys] never wrap:
      [skipped] is incremented only below [Offset], and [count] only until it
      reaches [Limit] (or once, when [Limit <= 0]).
    - A Go result pair [(v, err)] is a [result].
    - A Go panic that nothing recovers ends the process: a function that can
      panic has an [outcome], and [Panic] is the end of the run.  Running out
      of memory while a buffer grows is not modelled.
    - The mutexes of [DBClient] and [Handler] are not modelled.  [Handler.Run]
      starts [handleLine] on a goroutine of its own for every input line and
      does not wait for it; it is not modelled either.  The properties of
      [handleLine] and of the handlers are about one call, or about a run of
      calls, that no other call interleaves with. *)

From Stdlib Require Import ZArith List String Ascii Strings.Byte Bool Lia DecimalString.
From stdpp Require Import base tactics option list sorting strings gmap.

Local Open Scope Z_scope.

(** ** Go results and errors *)

Inductive result (E A : Type) : Type :=
| Ok (a : A)
| Err (e : E).
Arguments Ok {E A} a.
Arguments Err {E A} e.

(** What becomes of a call that can panic *)
Inductive outcome (A : Type) : Type :=
| Done (a : A)
| Panic.
Arguments Done {A} a.
Arguments Panic {A}.

(** The error values that the two packages create or pass on.  [ErrLibrary]
    stands for an error made by a library ([encoding/json],
    [encoding/base64], Badger); only its text is kept. *)
Inductive error : Type :=
| ErrNotOpen                       (* "database not open" *)
| ErrAlreadyOpen                   (* "database is already open" *)
| ErrNoDirectory (path : string)   (* "directory does not exist: %s" *)
| ErrOpenFailed (cause : string)   (* "failed to open badger db: %w" *)
| ErrInvalidRegex (cause : string) (* "invalid regex: %w" *)
| ErrUnknownSession (id : string)  (* "unknown upload session: %s" *)
| ErrLibrary (text : string).

Definition Error_text (e : error) : string :=
  match e with
  | ErrNotOpen => "database not open"
  | ErrAlreadyOpen => "database is already open"
  | ErrNoDirectory path => "directory does not exist: " +:+ path
  | ErrOpenFailed cause => "failed to open badger db: " +:+ cause
  | ErrInvalidRegex cause => "invalid regex: " +:+ cause
  | ErrUnknownSession id => "unknown upload session: " +:+ id
  | ErrLibrary text => text
  end.

(** ** The [strings] and [fmt] primitives used by the engine *)

Module strings.

(** [strings.HasPrefix(s, prefix)] *)
Definition HasPrefix (s pre : string) : bool := String.prefix pre s.

(** [strings.Contains(s, substr)] *)
Fixpoint Contains (s substr : string) : bool :=
  String.prefix substr s ||
  match s with
  | EmptyString => false
  | String _ s' => Contains s' substr
  end.

(** [a > b] on Go strings *)
Definition gt (a b : string) : bool := String.ltb b a.

(** the ["%d"] verb of [fmt.Sprintf] *)
Definition itoa (n : Z) : string := NilZero.string_of_int (Z.to_int n).

(** [strings.ReplaceAll(s, old, new)] for a non-empty [old]: the occurrences
    of [old] are replaced from the left, without overlap.  [skip] counts the
    bytes of an occurrence just replaced that are still to be passed over. *)
Fixpoint replace_from (old new : string) (skip : nat) (s : string) : string :=
  match s with
  | EmptyString => EmptyString
  | String c s' =>
    match skip with
    | S k => replace_from old new k s'
    | O =>
      if String.prefix old s
      then new +:+ replace_from old new (String.length old - 1) s'
      else String c (replace_from old new 0 s')
    end
  end.

Definition ReplaceAll (s old new : string) : string := replace_from old new 0 s.

End strings.

(** ** Generic list helpers *)

Section Lists.
Context {A : Type}.

Fixpoint dropWhile (p : A -> bool) (l : list A) : list A :=
  match l with
  | [] => []
  | x :: xs => if p x then dropWhile p xs else l
  end.

Fixpoint takeWhile (p : A -> bool) (l : list A) : list A :=
  match l with
  | [] => []
  | x :: xs => if p x then x :: takeWhile p xs else []
  end.

End Lists.

(** ** The Go runtime and the [time] package

    [make([]byte, 0, n)] panics when [n] is negative or beyond what the
    machine can address, and the process dies when the memory cannot be had.
    Which capacities are granted is outside the repository: [allocatable].
    The laws kept are that a negative capacity is never granted and that the
    capacity 0 always is. *)
Module runtime.

Class Memory : Type := {
  allocatable : Z -> bool;
  allocatable_nonneg : forall n, allocatable n = true -> 0 <= n;
  allocatable_zero : allocatable 0 = true
}.

End runtime.

Module time.

(** the value that an [int64] holds after an operation whose exact result
    is [z] *)
Definition int64 (z : Z) : Z := (z + 2 ^ 63) mod 2 ^ 64 - 2 ^ 63.

(** [time.Second], in nanoseconds *)
Definition Second : Z := 1000000000.

End time.

(** ** The [regexp] package

    The regular-expression engine is outside the repository.  It is taken as
    an interface: [Compile] either fails with a message or gives a compiled
    pattern, which [MatchString] runs on a key.  The one law kept is that the
    empty pattern is a valid pattern (it is, in Go's syntax). *)
Module regexp.

Class Lib : Type := {
  Regexp : Type;
  Compile : string -> result string Regexp;
  MatchString : Regexp -> string -> bool;
  Compile_empty : exists r, Compile "" = Ok r
}.

End regexp.

(** ** The Badger store, as [ListKeys] and the point operations see it

    Badger is outside the repository; this is its documented contract.
    A store holds at most one live entry per key, ordered by key.  An
    iterator walks a snapshot of it.  [Seek key] places a forward iterator on
    the smallest stored key [>= key] and a reverse iterator on the largest
    stored key [<= key]; with an empty key it rewinds: to the first entry
    going forward, to the last entry in reverse.  Expiry by wall-clock time is
    not modelled. *)
Module badger.

Record Item : Type := {
  Key : string;
  (* what [ValueCopy] reads: [None] when the value log cannot be read *)
  stored : option (list byte);
  ValueSize : Z;
  ExpiresAt : Z
}.

Definition ValueCopy (item : Item) : result string (list byte) :=
  match stored item with
  | Some v => Ok v
  | None => Err "value log read failed"
  end.

(** the entries of a store, in ascending key order *)
Definition DB : Type := list Item.

(** the entries still ahead of the cursor, the current one first *)
Definition Iterator : Type := list Item.

Definition Valid (it : Iterator) : bool :=
  match it with [] => false | _ :: _ => true end.

Definition Next (it : Iterator) : Iterator := tl it.

Definition Seek (db : DB) (Reverse : bool) (key : string) : Iterator :=
  if Reverse then
    if String.eqb key "" then rev db
    else dropWhile (fun e => String.ltb key (Key e)) (rev db)
  else dropWhile (fun e => String.ltb (Key e) key) db.

(** [txn.Get]: the entry stored under [key] *)
Fixpoint Get (db : DB) (key : string) : option Item :=
  match db with
  | [] => None
  | e :: db' => if String.eqb (Key e) key then Some e else Get db' key
  end.

(** [txn.SetEntry] after commit: the entry replaces the one under the same
    key or is inserted at its place in the order. *)
Fixpoint SetEntry (db : DB) (e : Item) : DB :=
  match db with
  | [] => [e]
  | x :: db' =>
    match String.compare (Key e) (Key x) with
    | Lt => e :: db
    | Eq => e :: db'
    | Gt => x :: SetEntry db' e
    end
  end.

(** [txn.Delete] after commit *)
Definition Delete (db : DB) (key : string) : DB :=
  List.filter (fun e => negb (String.eqb (Key e) key)) db.

(** What the model takes from outside.  Of the machine: the directories of
    the file system, the store that [badger.Open] finds in one, the error
    that closing a store ends with, if any, and the expiry stamp that
    [Entry.WithTTL] computes from the wall clock for a duration in
    nanoseconds.  Of Badger: the text of its size errors, which carries a
    hex dump, and the size that [Item.ValueSize] reports for a value kept in
    the value log, which is an estimate made from the length of its log
    record. *)
Class Host : Type := {
  dir_exists : string -> bool;
  Open : string -> result string DB;
  Close : DB -> option string;
  WithTTL : Z -> Z;
  (* the closure [exceedsSize] of [txn.modify]: prefix, limit, offender *)
  exceedsSize : string -> Z -> string -> string;
  vlogValueSize : string -> list byte -> Z
}.

(** the prefix of the keys that Badger keeps for itself *)
Definition badgerPrefix : string := "!badger!".

(** the constant [maxKeySize] of [txn.modify] *)
Definition maxKeySize : Z := 65000.

Definition reserved (key : string) : bool := String.prefix badgerPrefix key.

Definition oversized (key : string) : bool :=
  maxKeySize <? Z.of_nat (String.length key).

(** The checks of [txn.modify] on the key of an update, in their order: the
    empty key ([ErrEmptyKey]), a key under the reserved prefix
    ([ErrInvalidKey]), a key of more than [maxKeySize] bytes.  [None] when
    the key is accepted. *)
Definition modify_error `{Host} (key : string) : option string :=
  if String.eqb key "" then Some "Key cannot be empty"
  else if reserved key then Some "Key is using a reserved !badger! prefix"
  else if oversized key then Some (exceedsSize "Key" maxKeySize key)
  else None.

(** The update transactions of the point operations.  An update goes
    through the checks of [txn.modify] on its key.  The limit of Badger on
    the size of a value (one gibibyte under the options that [Open] sets)
    and its I/O failures are not modelled. *)
Definition Update_SetEntry `{Host} (db : DB) (e : Item) : result string DB :=
  match modify_error (Key e) with
  | Some text => Err text
  | None => Ok (SetEntry db e)
  end.

Definition Update_Delete `{Host} (db : DB) (key : string) : result string DB :=
  match modify_error key with
  | Some text => Err text
  | None => Ok (Delete db key)
  end.

(** [txn.Get] in a read transaction.  The empty key is refused
    ([ErrEmptyKey]).  The entries of the model are those of the users:
    every one of them was stored by an update, so none lies under a key
    that [txn.modify] refuses, and the lookup under such a key finds
    nothing ([ErrKeyNotFound]).  The entries that Badger keeps for itself
    under the reserved prefix are not part of the model; an iterator does
    not show them. *)
Definition View_Get (db : DB) (key : string) : result string Item :=
  if String.eqb key "" then Err "Key cannot be empty"
  else if reserved key || oversized key then Err "Key not found"
  else match Get db key with
       | Some item => Ok item
       | None => Err "Key not found"
       end.

(** the option [ValueThreshold] that [DefaultOptions] sets: a value
    shorter than this is kept with its key, a longer one in the value log *)
Definition ValueThreshold : Z := 1048576.

(** [Item.ValueSize] of the entry that an update stores *)
Definition storedValueSize `{Host} (key : string) (value : list byte) : Z :=
  if Z.of_nat (length value) <? ValueThreshold then Z.of_nat (length value)
  else vlogValueSize key value.

(** keys strictly ascending: the invariant of a store *)
Definition before (a b : Item) : Prop := String.ltb (Key a) (Key b) = true.

Definition ascending (db : DB) : Prop := StronglySorted before db.

End badger.

(** ** The [os], [path/filepath] and [time] packages

    The file system and the clock are outside the repository.  They are a
    state [World] that each call takes and hands back, with the error of the
    call if any. *)
Module os.

Class Host : Type := {
  World : Type;
  MkdirAll : World -> string -> Z -> World * option string;
  WriteFile : World -> string -> list byte -> Z -> World * option string;
  (* [time.Now().Format(layout)] *)
  Now_Format : World -> string -> string;
  (* [filepath.Join(dir, name)] *)
  Join : string -> string -> string
}.

End os.

(** ** Package [db] *)

Module db.

(** [DBClient]: [db] is [None] while no store is open. *)
Record DBClient : Type := {
  path : string;
  db : option badger.DB
}.

Definition NewDBClient : DBClient := {| path := ""; db := None |}.

Record KeyItem : Type := {
  Key : string;
  ValuePreview : string;
  Size : Z;
  ExpiresAt : Z
}.

Record ListKeysOptions : Type := {
  Prefix : string;
  Mode : string;        (* "prefix", "substring", "regex" *)
  SortDesc : bool;
  Limit : Z;
  Offset : Z;
  StartKey : string;
  PreviewChars : Z
}.

(** *** [isBinary] *)

(** the loop [for i := 0; i < n; i++] of [isBinary], [n] steps left *)
Fixpoint isBinary_loop (n : nat) (data : list byte) : bool :=
  match n, data with
  | S n', b :: data' => if Byte.eqb b x00 then true else isBinary_loop n' data'
  | _, _ => false
  end.

Definition isBinary (data : list byte) : bool :=
  let n := length data in
  let n := if (512 <? n)%nat then 512%nat else n in
  isBinary_loop n data.

(** *** The preview of a value (the block "Preview" / "Check for binary" of
    [ListKeys]) *)
Definition preview (PreviewChars : Z) (valCopy : list byte) : string :=
  let previewLen := PreviewChars in
  let previewLen := if previewLen <=? 0 then 100 else previewLen in
  let preview :=
    if Z.of_nat (length valCopy) >? previewLen
    then string_of_list_byte (take (Z.to_nat previewLen) valCopy) +:+ "..."
    else string_of_list_byte valCopy in
  if isBinary valCopy
  then "[Binary " +:+ strings.itoa (Z.of_nat (length valCopy)) +:+ " bytes]"
  else preview.

Section ListKeys.
Context `{RE : regexp.Lib}.
Variable opts : ListKeysOptions.

(** the seek position ("start key") *)
Definition startKey : string :=
  if negb (String.eqb (StartKey opts) "") then StartKey opts
  else if negb (String.eqb (Mode opts) "prefix") then
    if SortDesc opts then String (ascii_of_byte xff) "" else ""
  else Prefix opts.

(** the outcome of the filter on one key: leave the scan, or go on with
    [match] set *)
Inductive verdict : Type :=
| Return
| Match (m : bool).

(** the [switch opts.Mode]; [re] is the compiled pattern, [None] for
    Go's [nil] *)
Definition filterKey (re : option regexp.Regexp) (keyStr : string) : verdict :=
  if String.eqb (Mode opts) "prefix" then
    if SortDesc opts then
      if strings.HasPrefix keyStr (Prefix opts) then Match true
      else Match (strings.HasPrefix keyStr (Prefix opts))
    else
      if strings.HasPrefix keyStr (Prefix opts) then Match true
      else if negb (String.eqb (Prefix opts) "")
              && strings.gt keyStr (Prefix opts)
              && negb (strings.HasPrefix keyStr (Prefix opts))
           then Return
           else Match false
  else if String.eqb (Mode opts) "substring" then
    Match (strings.Contains keyStr (Prefix opts))
  else if String.eqb (Mode opts) "regex" then
    match re with
    | Some r => Match (regexp.MatchString r keyStr)
    | None => Match true
    end
  else Match (strings.HasPrefix keyStr (Prefix opts)).

Definition mkKeyItem (item : badger.Item) (valCopy : list byte) : KeyItem :=
  {| Key := badger.Key item;
     ValuePreview := preview (PreviewChars opts) valCopy;
     Size := badger.ValueSize item;
     ExpiresAt := badger.ExpiresAt item |}.

(** the loop [for ; it.Valid(); it.Next()], from the state
    ([it], [count], [skipped], [items]) to ([items], [hasMore]) *)
Fixpoint scan (re : option regexp.Regexp) (it : badger.Iterator)
    (count skipped : Z) (items : list KeyItem) : list KeyItem * bool :=
  match it with
  | [] => (items, false)
  | item :: it' =>
    match filterKey re (badger.Key item) with
    | Return => (items, false)
    | Match false => scan re it' count skipped items
    | Match true =>
      if String.eqb (StartKey opts) "" && (skipped <? Offset opts)
      then scan re it' count (skipped + 1) items
      else
        match badger.ValueCopy item with
        | Err _ => scan re it' count skipped items
        | Ok valCopy =>
          let items := items ++ [mkKeyItem item valCopy] in
          let count := count + 1 in
          if count >=? Limit opts
          then (items, badger.Valid (badger.Next it))
          else scan re it' count skipped items
        end
    end
  end.

(** the callback of [db.View] *)
Definition view (store : badger.DB) : result error (list KeyItem * bool) :=
  let it := badger.Seek store (SortDesc opts) startKey in
  if String.eqb (Mode opts) "regex" && negb (String.eqb (Prefix opts) "") then
    match regexp.Compile (Prefix opts) with
    | Err cause => Err (ErrInvalidRegex cause)
    | Ok re => Ok (scan (Some re) it 0 0 [])
    end
  else Ok (scan None it 0 0 []).

Definition ListKeys (c : DBClient) : result error (list KeyItem * bool) :=
  match db c with
  | None => Err ErrNotOpen
  | Some store =>
    match view store with
    | Err err => Err err
    | Ok (items, hasMore) => Ok (items, hasMore)
    end
  end.

End ListKeys.

(** *** Point operations *)

Definition GetValue (c : DBClient) (key : string) : result error (list byte) :=
  match db c with
  | None => Err ErrNotOpen
  | Some store =>
    match badger.View_Get store key with
    | Err text => Err (ErrLibrary text)
    | Ok item =>
      match badger.ValueCopy item with
      | Err text => Err (ErrLibrary text)
      | Ok val => Ok val
      end
    end
  end.

Section Writes.
Context `{H : badger.Host}.

(** [SetValue]: the client after the call, and the error if any *)
Definition SetValue (c : DBClient) (key : string) (value : list byte) (ttl : Z)
    : DBClient * option error :=
  match db c with
  | None => (c, Some ErrNotOpen)
  | Some store =>
    let e := {| badger.Key := key;
                badger.stored := Some value;
                badger.ValueSize := badger.storedValueSize key value;
                badger.ExpiresAt :=
                  if ttl >? 0
                  then badger.WithTTL (time.int64 (ttl * time.Second))
                  else 0 |} in
    match badger.Update_SetEntry store e with
    | Err text => (c, Some (ErrLibrary text))
    | Ok store' => ({| path := path c; db := Some store' |}, None)
    end
  end.

Definition DeleteKey (c : DBClient) (key : string) : DBClient * option error :=
  match db c with
  | None => (c, Some ErrNotOpen)
  | Some store =>
    match badger.Update_Delete store key with
    | Err text => (c, Some (ErrLibrary text))
    | Ok store' => ({| path := path c; db := Some store' |}, None)
    end
  end.

Definition Open (c : DBClient) (p : string) : DBClient * option error :=
  match db c with
  | Some _ => (c, Some ErrAlreadyOpen)
  | None =>
    if negb (badger.dir_exists p) then (c, Some (ErrNoDirectory p))
    else match badger.Open p with
         | Err cause => (c, Some (ErrOpenFailed cause))
         | Ok store => ({| path := p; db := Some store |}, None)
         end
  end.

(** [Close]: the client is closed whatever [db.Close] of Badger returns,
    and that is what [Close] returns *)
Definition Close (c : DBClient) : DBClient * option error :=
  match db c with
  | None => (c, None)
  | Some store =>
    let err := badger.Close store in
    ({| path := ""; db := None |}, ErrLibrary <$> err)
  end.

End Writes.

(** *** Accessors *)

Definition IsOpen (c : DBClient) : bool :=
  match db c with
  | Some _ => true
  | None => false
  end.

Definition GetPath (c : DBClient) : string := path c.

(** *** Backups *)

(** the characters that [sanitizeFilename] replaces: slash, backslash,
    colon, star, question mark, double quote, angle brackets, bar *)
Definition invalid : list string :=
  ["/"; "\"; ":"; "*"; "?"; String "034"%char ""; "<"; ">"; "|"].

(** the loop [for _, char := range invalid] *)
Definition sanitizeFilename (s : string) : string :=
  foldl (fun s char => strings.ReplaceAll s char "_") s invalid.

(** the two errors that [BackupValue] makes *)
Inductive backup_error : Type :=
| ErrBackupDir (cause : string)    (* "failed to create backup dir: %w" *)
| ErrBackupWrite (cause : string). (* "failed to write backup file: %w" *)

Section Backup.
Context `{OS : os.Host}.

(** [BackupValue]: the world after the call, and the path of the backup
    file (empty when there was nothing to back up) or the error *)
Definition BackupValue (w : os.World) (c : DBClient) (key backupDir : string)
    : os.World * result backup_error string :=
  match GetValue c key with
  | Err _ => (w, Ok "")
  | Ok val =>
    match os.MkdirAll w backupDir 493 (* 0755 *) with
    | (w, Some cause) => (w, Err (ErrBackupDir cause))
    | (w, None) =>
      let safeKey := sanitizeFilename key in
      let timestamp := os.Now_Format w "20060102-150405" in
      let filename := safeKey +:+ "_" +:+ timestamp +:+ ".bak" in
      let path := os.Join backupDir filename in
      match os.WriteFile w path val 420 (* 0644 *) with
      | (w, Some cause) => (w, Err (ErrBackupWrite cause))
      | (w, None) => (w, Ok path)
      end
    end
  end.

End Backup.

End db.

(** ** The [encoding/base64] package *)

Module base64.

Class StdEncoding : Type := {
  DecodeString : string -> result string (list byte);
  EncodeToString : list byte -> string
}.

End base64.

(** ** Package [api] *)

Module api.

Definition TypeOpenDB : string := "open_db".
Definition TypeListKeys : string := "list_keys".
Definition TypeGetValue : string := "get_value".
Definition TypePutValue : string := "put_value".
Definition TypePutChunk : string := "put_chunk".
Definition TypePutCommit : string := "put_commit".
Definition TypeDeleteKey : string := "delete_key".
Definition TypeCloseDB : string := "close_db".

(** [Request], over the type of the undecoded [params] *)
Record Request (RawMessage : Type) : Type := {
  ID : string;
  Type_ : string;
  Params : RawMessage
}.
Arguments ID {RawMessage} r.
Arguments Type_ {RawMessage} r.
Arguments Params {RawMessage} r.

Record Error : Type := {
  Code : Z;
  Message : string
}.

Record OpenDBParams : Type := { Path : string; ReadOnly : bool }.

Record ListKeysParams : Type := {
  lk_Prefix : string;
  lk_Mode : string;
  Sort : string;       (* "asc", "desc" *)
  lk_Limit : Z;
  lk_Offset : Z
}.

Record ListKeysResult : Type := { Keys : list db.KeyItem; HasMore : bool }.

Record GetValueParams : Type := { gv_Key : string }.

Record GetValueResult : Type := { Value : string (* Base64 encoded *) }.

Record PutValueParams : Type := {
  pv_Key : string;
  ValueLength : Z;
  pv_TTL : Z
}.

Record PutChunkParams : Type := {
  pc_ID : string;      (* Original Request ID *)
  ChunkIndex : Z;
  Data : string        (* Base64 *)
}.

Record PutCommitParams : Type := {
  cm_ID : string;
  cm_Key : string;
  cm_TTL : Z
}.

Record DeleteKeyParams : Type := { dk_Key : string }.

(** the values that a handler hands back as [interface{}] *)
Inductive interface : Type :=
| nil
| ofListKeysResult (r : ListKeysResult)
| ofGetValueResult (r : GetValueResult).

Record Response : Type := {
  rs_ID : string;
  rs_Type : string;
  Result : interface;
  rs_Error : option Error
}.

(** [encoding/json], as the package uses it: what [json.Unmarshal] makes of
    an input line (the request as far as it was filled in, and the error if
    any) and of the [params] of each request kind. *)
Class Json : Type := {
  RawMessage : Type;
  Unmarshal_Request : list byte -> Request RawMessage * option string;
  Unmarshal_OpenDBParams : RawMessage -> result string OpenDBParams;
  Unmarshal_ListKeysParams : RawMessage -> result string ListKeysParams;
  Unmarshal_GetValueParams : RawMessage -> result string GetValueParams;
  Unmarshal_PutValueParams : RawMessage -> result string PutValueParams;
  Unmarshal_PutChunkParams : RawMessage -> result string PutChunkParams;
  Unmarshal_PutCommitParams : RawMessage -> result string PutCommitParams;
  Unmarshal_DeleteKeyParams : RawMessage -> result string DeleteKeyParams
}.

(** [Handler]: [out] is what has been written to the output stream, one
    response per line, the latest last; [chunkBuffer] is the session table. *)
Record Handler : Type := {
  dbClient : db.DBClient;
  out : list Response;
  chunkBuffer : gmap string (list byte)
}.

Definition NewHandler (dbClient : db.DBClient) : Handler :=
  {| dbClient := dbClient; out := []; chunkBuffer := ∅ |}.

Definition with_dbClient (h : Handler) (c : db.DBClient) : Handler :=
  {| dbClient := c; out := out h; chunkBuffer := chunkBuffer h |}.

Definition with_chunkBuffer (h : Handler) (m : gmap string (list byte)) : Handler :=
  {| dbClient := dbClient h; out := out h; chunkBuffer := m |}.

(** [writeJSON]: these responses always marshal, so the line is written *)
Definition writeJSON (h : Handler) (v : Response) : Handler :=
  {| dbClient := dbClient h; out := out h ++ [v]; chunkBuffer := chunkBuffer h |}.

Definition sendResponse (h : Handler) (id typeStr : string) (result : interface) : Handler :=
  writeJSON h {| rs_ID := id; rs_Type := typeStr; Result := result; rs_Error := None |}.

Definition sendError (h : Handler) (id : string) (code : Z) (msg : string) : Handler :=
  writeJSON h {| rs_ID := id; rs_Type := "error"; Result := nil;
                 rs_Error := Some {| Code := code; Message := msg |} |}.

(** a Go return [(nil, err)] with [err] possibly [nil] *)
Definition nil_or (err : option error) : result error interface :=
  match err with
  | Some e => Err e
  | None => Ok nil
  end.

Section Handlers.
Context `{RE : regexp.Lib} `{HO : badger.Host} `{B64 : base64.StdEncoding} `{JS : Json}
        `{RT : runtime.Memory}.

Definition handleOpenDB (h : Handler) (params : RawMessage) : Handler * result error interface :=
  match Unmarshal_OpenDBParams params with
  | Err text => (h, Err (ErrLibrary text))
  | Ok p =>
    let '(c, err) := db.Open (dbClient h) (Path p) in
    (with_dbClient h c, nil_or err)
  end.

Definition handleListKeys (h : Handler) (params : RawMessage) : Handler * result error interface :=
  match Unmarshal_ListKeysParams params with
  | Err text => (h, Err (ErrLibrary text))
  | Ok p =>
    let opts := {| db.Prefix := lk_Prefix p;
                   db.Mode := lk_Mode p;
                   db.SortDesc := String.eqb (Sort p) "desc";
                   db.Limit := lk_Limit p;
                   db.Offset := lk_Offset p;
                   db.StartKey := "";
                   db.PreviewChars := 0 |} in
    match db.ListKeys opts (dbClient h) with
    | Err err => (h, Err err)
    | Ok (keys, hasMore) =>
      (h, Ok (ofListKeysResult {| Keys := keys; HasMore := hasMore |}))
    end
  end.

Definition handleGetValue (h : Handler) (params : RawMessage) : Handler * result error interface :=
  match Unmarshal_GetValueParams params with
  | Err text => (h, Err (ErrLibrary text))
  | Ok p =>
    match db.GetValue (dbClient h) (gv_Key p) with
    | Err err => (h, Err err)
    | Ok val =>
      (h, Ok (ofGetValueResult {| Value := base64.EncodeToString val |}))
    end
  end.

(** [make([]byte, 0, p.ValueLength)] panics unless the capacity can be
    had; when it can, it is the empty slice, and no later step reads the
    capacity. *)
Definition handlePutValue (h : Handler) (reqID : string) (params : RawMessage)
    : outcome (Handler * result error interface) :=
  match Unmarshal_PutValueParams params with
  | Err text => Done (h, Err (ErrLibrary text))
  | Ok p =>
    if runtime.allocatable (ValueLength p)
    then Done (with_chunkBuffer h (<[reqID := []]> (chunkBuffer h)), Ok nil)
    else Panic
  end.

Definition handlePutChunk (h : Handler) (params : RawMessage) : Handler * result error interface :=
  match Unmarshal_PutChunkParams params with
  | Err text => (h, Err (ErrLibrary text))
  | Ok p =>
    match base64.DecodeString (Data p) with
    | Err text => (h, Err (ErrLibrary text))
    | Ok data =>
      match chunkBuffer h !! pc_ID p with
      | None => (h, Err (ErrUnknownSession (pc_ID p)))
      | Some buf =>
        (with_chunkBuffer h (<[pc_ID p := buf ++ data]> (chunkBuffer h)), Ok nil)
      end
    end
  end.

Definition handlePutCommit (h : Handler) (params : RawMessage) : Handler * result error interface :=
  match Unmarshal_PutCommitParams params with
  | Err text => (h, Err (ErrLibrary text))
  | Ok p =>
    let found := chunkBuffer h !! cm_ID p in
    let h := with_chunkBuffer h (delete (cm_ID p) (chunkBuffer h)) in
    match found with
    | None => (h, Err (ErrUnknownSession (cm_ID p)))
    | Some buf =>
      let '(c, err) := db.SetValue (dbClient h) (cm_Key p) buf (cm_TTL p) in
      (with_dbClient h c, nil_or err)
    end
  end.

Definition handleDeleteKey (h : Handler) (params : RawMessage) : Handler * result error interface :=
  match Unmarshal_DeleteKeyParams params with
  | Err text => (h, Err (ErrLibrary text))
  | Ok p =>
    let '(c, err) := db.DeleteKey (dbClient h) (dk_Key p) in
    (with_dbClient h c, nil_or err)
  end.

Definition handleCloseDB (h : Handler) : Handler * result error interface :=
  let '(c, err) := db.Close (dbClient h) in
  (with_dbClient h c, nil_or err).

(** the [switch req.Type]: [None] is the [default] branch; of the
    handlers, [handlePutValue] alone can panic *)
Definition dispatch (h : Handler) (req : Request RawMessage)
    : option (outcome (Handler * result error interface)) :=
  if String.eqb (Type_ req) TypeOpenDB then Some (Done (handleOpenDB h (Params req)))
  else if String.eqb (Type_ req) TypeListKeys then Some (Done (handleListKeys h (Params req)))
  else if String.eqb (Type_ req) TypeGetValue then Some (Done (handleGetValue h (Params req)))
  else if String.eqb (Type_ req) TypePutValue then Some (handlePutValue h (ID req) (Params req))
  else if String.eqb (Type_ req) TypePutChunk then Some (Done (handlePutChunk h (Params req)))
  else if String.eqb (Type_ req) TypePutCommit then Some (Done (handlePutCommit h (Params req)))
  else if String.eqb (Type_ req) TypeDeleteKey then Some (Done (handleDeleteKey h (Params req)))
  else if String.eqb (Type_ req) TypeCloseDB then Some (Done (handleCloseDB h))
  else None.

(** [handleLine]: the handler after the response is written, or the panic
    of [handlePutValue], which [handleLine] does not recover from and which
    leaves the line without a response *)
Definition handleLine (h : Handler) (line : list byte) : outcome Handler :=
  match Unmarshal_Request line with
  | (req, Some _) => Done (sendError h (ID req) 1003 "Invalid request format")
  | (req, None) =>
    match dispatch h req with
    | None => Done (sendError h (ID req) 1000 "Unknown request type")
    | Some Panic => Panic
    | Some (Done (h, Err err)) => Done (sendError h (ID req) 1000 (Error_text err))
    | Some (Done (h, Ok result)) =>
      Done (sendResponse h (ID req) (Type_ req +:+ "_resp") result)
    end
  end.

End Handlers.

End api.

(** ** Package [config] *)

Module config.

Record SearchConfig : Type := {
  DefaultMode : string;
  CaseSensitive : bool;
  DebounceMS : Z
}.

Record UIConfig : Type := {
  PreviewChars : Z;
  ValuePageSize : Z
}.

Record DBConfig : Type := {
  OpenBatchSize : Z;
  AutoBackupOnWrite : bool;
  BackupRetention : Z;
  BackupPath : string
}.

Record Config : Type := {
  Theme : string;
  MainColor : string;
  SubColor : string;
  BorderStyle : string;
  Search : SearchConfig;
  UI : UIConfig;
  DB : DBConfig;
  RecentDBs : list string;
  Localization : string;
  configPath : string
}.

Definition DefaultConfig : Config :=
  {| Theme := "dark";
     MainColor := "pastel_blue";
     SubColor := "pastel_purple";
     BorderStyle := "rounded";
     Search := {| DefaultMode := "prefix"; CaseSensitive := true; DebounceMS := 400 |};
     UI := {| PreviewChars := 100; ValuePageSize := 4096 |};
     DB := {| OpenBatchSize := 200; AutoBackupOnWrite := false;
              BackupRetention := 3; BackupPath := "./backups" |};
     RecentDBs := [];
     Localization := "en";
     configPath := "" |}.

Definition with_RecentDBs (c : Config) (recent : list string) : Config :=
  {| Theme := Theme c; MainColor := MainColor c; SubColor := SubColor c;
     BorderStyle := BorderStyle c; Search := Search c; UI := UI c; DB := DB c;
     RecentDBs := recent;
     Localization := Localization c; configPath := configPath c |}.

(** [AddRecentDB]: the loop that drops [path], the prepend, the cut at 5 *)
Definition AddRecentDB (c : Config) (path : string) : Config :=
  let newRecent :=
    foldl (fun newRecent p =>
             if negb (String.eqb p path) then newRecent ++ [p] else newRecent)
          [] (RecentDBs c) in
  let newRecent := [path] ++ newRecent in
  let newRecent :=
    if (5 <? length newRecent)%nat then take 5 newRecent else newRecent in
  with_RecentDBs c newRecent.

Definition GetRecentDBs (c : Config) : list string := RecentDBs c.

End config.

(** ** Package [locale] *)

Module locale.

(** the message lookup [T] of the localizer in use *)
Class Localizer : Type := {
  T : string -> string
}.

End locale.

(** ** Package [ui]: the commands that write to the store

    Of a screen model, the fields that its commands read: the shared client,
    the configuration, and the text held by its input widgets. *)

Module ui.

(** the errors that a command reports *)
Inductive cmd_error : Type :=
| ErrKeyEmpty                          (* "key cannot be empty" *)
| ErrBackupFailed (e : db.backup_error) (* "backup failed: %w" *)
| ErrStore (e : error).

Record OperationResultMsg : Type := {
  Op : string;
  Message : string;
  Err_ : option cmd_error
}.

Record DetailModel : Type := {
  dm_dbClient : db.DBClient;
  dm_cfg : config.Config;
  key : string;
  textarea_Value : string
}.

Record InsertModel : Type := {
  im_dbClient : db.DBClient;
  im_cfg : config.Config;
  keyInput_Value : string;
  valueInput_Value : string
}.

Section Commands.
Context `{HO : badger.Host} `{OS : os.Host} `{LO : locale.Localizer}.

(** [DetailModel.saveValueCmd]: the world and the client after the command
    has run, and the message it sends *)
Definition saveValueCmd (w : os.World) (m : DetailModel)
    : os.World * db.DBClient * OperationResultMsg :=
  let backup :=
    if config.AutoBackupOnWrite (config.DB (dm_cfg m))
    then db.BackupValue w (dm_dbClient m) (key m) (config.BackupPath (config.DB (dm_cfg m)))
    else (w, Ok "") in
  match backup with
  | (w, Err err) =>
    (w, dm_dbClient m,
     {| Op := "save"; Message := ""; Err_ := Some (ErrBackupFailed err) |})
  | (w, Ok _) =>
    match db.SetValue (dm_dbClient m) (key m)
            (list_byte_of_string (textarea_Value m)) 0 with
    | (c, Some err) =>
      (w, c, {| Op := "save"; Message := ""; Err_ := Some (ErrStore err) |})
    | (c, None) =>
      (w, c, {| Op := "save"; Message := locale.T "save_success"; Err_ := None |})
    end
  end.

(** [DetailModel.deleteKeyCmd] *)
Definition deleteKeyCmd (m : DetailModel) : db.DBClient * OperationResultMsg :=
  match db.DeleteKey (dm_dbClient m) (key m) with
  | (c, Some err) =>
    (c, {| Op := "delete"; Message := ""; Err_ := Some (ErrStore err) |})
  | (c, None) =>
    (c, {| Op := "delete"; Message := locale.T "delete_success"; Err_ := None |})
  end.

(** [InsertModel.saveCmd] *)
Definition saveCmd (w : os.World) (m : InsertModel)
    : os.World * db.DBClient * OperationResultMsg :=
  let key := keyInput_Value m in
  let val := valueInput_Value m in
  if String.eqb key "" then
    (w, im_dbClient m,
     {| Op := "insert"; Message := ""; Err_ := Some ErrKeyEmpty |})
  else
    let w :=
      if config.AutoBackupOnWrite (config.DB (im_cfg m))
      then (db.BackupValue w (im_dbClient m) key
              (config.BackupPath (config.DB (im_cfg m)))).1
      else w in
    match db.SetValue (im_dbClient m) key (list_byte_of_string val) 0 with
    | (c, Some err) =>
      (w, c, {| Op := "insert"; Message := ""; Err_ := Some (ErrStore err) |})
    | (c, None) =>
      (w, c, {| Op := "insert"; Message := locale.T "save_success"; Err_ := None |})
    end.

End Commands.

End ui.

(** ** Vocabulary for the properties of a query *)

Section QueryVocabulary.
Context `{RE : regexp.Lib}.
Variable opts : db.ListKeysOptions.

(** the pattern that the scan runs with: compiled for a regex query with a
    pattern, Go's [nil] otherwise *)
Definition compiled : option regexp.Regexp :=
  if String.eqb (db.Mode opts) "regex" && negb (String.eqb (db.Prefix opts) "") then
    match regexp.Compile (db.Prefix opts) with
    | Ok re => Some re
    | Err _ => None
    end
  else None.

(** the match predicate of the active mode *)
Definition matchKey (re : option regexp.Regexp) (key : string) : bool :=
  if String.eqb (db.Mode opts) "prefix" then strings.HasPrefix key (db.Prefix opts)
  else if String.eqb (db.Mode opts) "substring" then strings.Contains key (db.Prefix opts)
  else if String.eqb (db.Mode opts) "regex" then
    match re with
    | Some r => regexp.MatchString r key
    | None => true
    end
  else strings.HasPrefix key (db.Prefix opts).

Definition matches (re : option regexp.Regexp) (e : badger.Item) : bool :=
  matchKey re (badger.Key e).

(** the entries that the iterator of the query walks, in the order it walks
    them *)
Definition cursor (store : badger.DB) : badger.Iterator :=
  badger.Seek store (db.SortDesc opts) (db.startKey opts).

(** the entries seen before the scan leaves by the seek optimisation *)
Definition goes_on (re : option regexp.Regexp) (e : badger.Item) : bool :=
  match db.filterKey opts re (badger.Key e) with
  | db.Return => false
  | db.Match _ => true
  end.

Definition visited (re : option regexp.Regexp) (it : badger.Iterator) : list badger.Item :=
  takeWhile (goes_on re) it.

(** offset skipping over a list of matched entries, [n] of them still to be
    skipped; it is off when a start key is given *)
Definition skip_offset (n : Z) (l : list badger.Item) : list badger.Item :=
  if String.eqb (db.StartKey opts) "" then drop (Z.to_nat n) l else l.

(** the rows of the entries whose value can be read *)
Definition rows_of (l : list badger.Item) : list db.KeyItem :=
  omap (fun e => db.mkKeyItem opts e <$> badger.stored e) l.

(** [e] lies strictly beyond [key] in the direction of the scan *)
Definition beyond (key : string) (e : badger.Item) : bool :=
  if db.SortDesc opts then String.ltb (badger.Key e) key
  else String.ltb key (badger.Key e).

(** the store in the direction of the scan *)
Definition directed (store : badger.DB) : list badger.Item :=
  if db.SortDesc opts then rev store else store.

Definition ahead (a b : badger.Item) : Prop := beyond (badger.Key a) b = true.

End QueryVocabulary.

(** ** Vocabulary for the properties of the dispatcher *)

Section SessionVocabulary.
Context `{RE : regexp.Lib} `{HO : badger.Host} `{B64 : base64.StdEncoding}
        `{JS : api.Json}.

(** a run of [put_chunk] calls, in arrival order, with what each returned *)
Fixpoint put_chunks (h : api.Handler) (chunks : list api.RawMessage)
    : api.Handler * list (result error api.interface) :=
  match chunks with
  | [] => (h, [])
  | params :: chunks' =>
    let '(h1, r) := api.handlePutChunk h params in
    let '(h2, rs) := put_chunks h1 chunks' in
    (h2, r :: rs)
  end.


(** the error response that [sendError] writes *)
Definition error_response (id : string) (code : Z) (msg : string) : api.Response :=
  {| api.rs_ID := id; api.rs_Type := "error"; api.Result := api.nil;
     api.rs_Error := Some {| api.Code := code; api.Message := msg |} |}.

(** the code of the response written last, if it is an error *)
Definition last_error_code (h : api.Handler) : option Z :=
  match last (api.out h) with
  | Some resp => api.Code <$> api.rs_Error resp
  | None => None
  end.

End SessionVocabulary.

(** ** Sample environment, for the worked examples *)

Module sample.

(** a pattern engine of literals: a pattern matches the keys that contain it,
    and ["("] alone is not a pattern *)
Definition literal : regexp.Lib :=
  {| regexp.Regexp := string;
     regexp.Compile := fun p =>
       if String.eqb p "(" then Err "missing closing )" else Ok p;
     regexp.MatchString := fun r s => strings.Contains s r;
     regexp.Compile_empty := ex_intro _ "" eq_refl |}.

(** a host with no directory, whose stores close without an error, and
    whose clock stands at second 1000 *)
Definition host : badger.Host :=
  {| badger.dir_exists := fun _ => false;
     badger.Open := fun _ => Err "no such store";
     badger.Close := fun _ => None;
     badger.WithTTL := fun dur => 1000 + dur / time.Second;
     badger.exceedsSize := fun prefix max _ =>
       prefix +:+ " exceeded " +:+ strings.itoa max +:+ " limit";
     badger.vlogValueSize := fun _ value => Z.of_nat (length value) |}.

(** a machine that grants a capacity of up to one mebibyte *)
Definition memory : runtime.Memory :=
  {| runtime.allocatable := fun n => (0 <=? n) && (n <=? 1048576);
     runtime.allocatable_nonneg := fun n Hn =>
       proj1 (Z.leb_le 0 n) (proj1 (andb_prop _ _ Hn));
     runtime.allocatable_zero := eq_refl |}.

Definition entry (k v : string) : badger.Item :=
  {| badger.Key := k;
     badger.stored := Some (list_byte_of_string v);
     badger.ValueSize := Z.of_nat (String.length v);
     badger.ExpiresAt := 0 |}.

Definition client (store : badger.DB) : db.DBClient :=
  {| db.path := "/data"; db.db := Some store |}.

Definition query (pattern mode : string) (desc : bool) (limit offset : Z)
    : db.ListKeysOptions :=
  {| db.Prefix := pattern; db.Mode := mode; db.SortDesc := desc;
     db.Limit := limit; db.Offset := offset; db.StartKey := "";
     db.PreviewChars := 0 |}.

Definition row (k v : string) : db.KeyItem :=
  {| db.Key := k; db.ValuePreview := v;
     db.Size := Z.of_nat (String.length v); db.ExpiresAt := 0 |}.

Definition users : badger.DB :=
  [entry "a1" "x"; entry "a2" "y"; entry "b" "z"].

(** a transport encoding that carries the bytes as they are *)
Definition plain : base64.StdEncoding :=
  {| base64.DecodeString := fun s => Ok (list_byte_of_string s);
     base64.EncodeToString := string_of_list_byte |}.

(** decoded [params], one shape per request kind *)
Inductive params : Type :=
| NoParams
| PutValue (p : api.PutValueParams)
| PutChunk (p : api.PutChunkParams)
| PutCommit (p : api.PutCommitParams).

Definition mismatch {A : Type} : result string A :=
  Err "json: cannot unmarshal params".

(** Four input lines and what they decode to.  ["bogus"] stands for a
    well-formed envelope of the unknown kind [bogus] with id 7, ["commit"]
    for a [put_commit] envelope with id 8 on the session [none], ["put"] for
    a [put_value] envelope with id 9 and the value length -1; every other
    line is malformed. *)
Definition unmarshal_line (line : list byte) : api.Request params * option string :=
  if String.eqb (string_of_list_byte line) "bogus" then
    ({| api.ID := "7"; api.Type_ := "bogus"; api.Params := NoParams |}, None)
  else if String.eqb (string_of_list_byte line) "commit" then
    ({| api.ID := "8"; api.Type_ := "put_commit";
        api.Params := PutCommit {| api.cm_ID := "none"; api.cm_Key := "k";
                                   api.cm_TTL := 0 |} |}, None)
  else if String.eqb (string_of_list_byte line) "put" then
    ({| api.ID := "9"; api.Type_ := "put_value";
        api.Params := PutValue {| api.pv_Key := "k"; api.ValueLength := -1;
                                  api.pv_TTL := 0 |} |}, None)
  else
    ({| api.ID := ""; api.Type_ := ""; api.Params := NoParams |},
     Some "invalid character").

Definition json : api.Json :=
  {| api.RawMessage := params;
     api.Unmarshal_Request := unmarshal_line;
     api.Unmarshal_OpenDBParams := fun _ => mismatch;
     api.Unmarshal_ListKeysParams := fun _ => mismatch;
     api.Unmarshal_GetValueParams := fun _ => mismatch;
     api.Unmarshal_PutValueParams := fun raw =>
       match raw with PutValue p => Ok p | _ => mismatch end;
     api.Unmarshal_PutChunkParams := fun raw =>
       match raw with PutChunk p => Ok p | _ => mismatch end;
     api.Unmarshal_PutCommitParams := fun raw =>
       match raw with PutCommit p => Ok p | _ => mismatch end;
     api.Unmarshal_DeleteKeyParams := fun _ => mismatch |}.

Definition handler : api.Handler := api.NewHandler (client []).

End sample.

(** ** Vocabulary for the further properties *)

Section FurtherVocabulary.

(** the query [opts] asked for another page *)
Definition page (opts : db.ListKeysOptions) (offset limit : Z) : db.ListKeysOptions :=
  {| db.Prefix := db.Prefix opts; db.Mode := db.Mode opts;
     db.SortDesc := db.SortDesc opts;
     db.Limit := limit; db.Offset := offset;
     db.StartKey := db.StartKey opts; db.PreviewChars := db.PreviewChars opts |}.

(** the query [opts] asked in the direction [desc] *)
Definition sorted_by (opts : db.ListKeysOptions) (desc : bool) : db.ListKeysOptions :=
  {| db.Prefix := db.Prefix opts; db.Mode := db.Mode opts;
     db.SortDesc := desc;
     db.Limit := db.Limit opts; db.Offset := db.Offset opts;
     db.StartKey := db.StartKey opts; db.PreviewChars := db.PreviewChars opts |}.

(** every value of the store can be read *)
Definition readable (store : badger.DB) : Prop :=
  Forall (fun e => is_Some (badger.stored e)) store.

(** the invariant of the store of a client: keys ascend, values can be read *)
Definition store_ok (c : db.DBClient) : Prop :=
  match db.db c with
  | Some store => badger.ascending store /\ readable store
  | None => True
  end.

(** the row [r1] comes strictly before the row [r2] in the direction of the
    query *)
Definition row_ahead (opts : db.ListKeysOptions) (r1 r2 : db.KeyItem) : Prop :=
  if db.SortDesc opts then String.ltb (db.Key r2) (db.Key r1) = true
  else String.ltb (db.Key r1) (db.Key r2) = true.

(** the single byte above which a descending scan without a prefix start
    does not look *)
Definition top_key : string := String (ascii_of_byte xff) "".

(** what [sanitizeFilename] makes of one byte *)
Definition sanitize_byte (c : ascii) : ascii :=
  if existsb (fun bad => String.eqb bad (String c "")) db.invalid then "_"%char else c.

Fixpoint map_bytes (f : ascii -> ascii) (s : string) : string :=
  match s with
  | EmptyString => EmptyString
  | String c s' => String (f c) (map_bytes f s')
  end.

End FurtherVocabulary.

Section FurtherSessionVocabulary.
Context `{B64 : base64.StdEncoding} `{JS : api.Json} `{RT : runtime.Memory}.

(** the bytes that a [put_chunk] request adds to the session [id]: its
    decoded payload when the request decodes and names [id], nothing
    otherwise *)
Definition payload_for (id : string) (params : api.RawMessage) : list byte :=
  match api.Unmarshal_PutChunkParams params with
  | Ok p =>
    match base64.DecodeString (api.Data p) with
    | Ok data => if String.eqb (api.pc_ID p) id then data else []
    | Err _ => []
    end
  | Err _ => []
  end.

(** the line decodes to a [put_value] request whose value length the
    machine cannot allocate *)
Definition unallocatable_upload (line : list byte) : Prop :=
  let req := (api.Unmarshal_Request line).1 in
  (api.Unmarshal_Request line).2 = None /\
  api.Type_ req = api.TypePutValue /\
  exists p, api.Unmarshal_PutValueParams (api.Params req) = Ok p /\
            runtime.allocatable (api.ValueLength p) = false.

End FurtherSessionVocabulary.

(** ** Sample file system and localizer *)

Module sample_os.

(** the calls that reached the file system *)
Inductive call : Type :=
| CallMkdirAll (path : string) (perm : Z)
| CallWriteFile (name : string) (data : list byte) (perm : Z).

(** a disk that records its calls; the directory ["/ro"] cannot be made *)
Definition disk : os.Host :=
  {| os.World := list call;
     os.MkdirAll := fun w path perm =>
       if String.eqb path "/ro" then (w, Some "read-only file system")
       else (w ++ [CallMkdirAll path perm], None);
     os.WriteFile := fun w name data perm =>
       (w ++ [CallWriteFile name data perm], None);
     os.Now_Format := fun _ _ => "20240102-030405";
     os.Join := fun dir name => dir +:+ "/" +:+ name |}.

Definition plain_text : locale.Localizer := {| locale.T := fun id => id |}.

Definition backing_up : config.Config :=
  {| config.Theme := "dark"; config.MainColor := ""; config.SubColor := "";
     config.BorderStyle := "";
     config.Search := config.Search config.DefaultConfig;
     config.UI := config.UI config.DefaultConfig;
     config.DB := {| config.OpenBatchSize := 200; config.AutoBackupOnWrite := true;
                     config.BackupRetention := 3; config.BackupPath := "/bak" |};
     config.RecentDBs := []; config.Localization := "en"; config.configPath := "" |}.

Definition backing_up_to (dir : string) : config.Config :=
  {| config.Theme := "dark"; config.MainColor := ""; config.SubColor := "";
     config.BorderStyle := "";
     config.Search := config.Search config.DefaultConfig;
     config.UI := config.UI config.DefaultConfig;
     config.DB := {| config.OpenBatchSize := 200; config.AutoBackupOnWrite := true;
                     config.BackupRetention := 3; config.BackupPath := dir |};
     config.RecentDBs := []; config.Localization := "en"; config.configPath := "" |}.

(** a host whose directory ["/data"] holds the store of the three users,
    and on which closing a store fails *)
Definition opening : badger.Host :=
  {| badger.dir_exists := fun p => String.eqb p "/data";
     badger.Open := fun _ => Ok sample.users;
     badger.Close := fun _ => Some "sync failed";
     badger.WithTTL := fun dur => 1000 + dur / time.Second;
     badger.exceedsSize := fun prefix max _ =>
       prefix +:+ " exceeded " +:+ strings.itoa max +:+ " limit";
     badger.vlogValueSize := fun _ value => Z.of_nat (length value) |}.

Definition chunk (id data : string) : sample.params :=
  sample.PutChunk {| api.pc_ID := id; api.ChunkIndex := 0; api.Data := data |}.

End sample_os.

(** * Part II: properties *)

(** ** The byte order on keys *)

Section KeyOrder.

Lemma ascii_compare_refl (a : ascii) : Ascii.compare a a = Eq.
Proof. apply N.compare_refl. Qed.

Lemma ascii_compare_lt_trans (a b c : ascii) :
  Ascii.compare a b = Lt -> Ascii.compare b c = Lt -> Ascii.compare a c = Lt.
Proof.
  unfold Ascii.compare. rewrite !N.compare_lt_iff. apply N.lt_trans.
Qed.

Lemma ascii_compare_lt_neq (a b : ascii) : Ascii.compare a b = Lt -> a <> b.
Proof. intros Hlt ->. rewrite ascii_compare_refl in Hlt. discriminate. Qed.

Lemma ltb_cons (a b : ascii) (s t : string) :
  String.ltb (String a s) (String b t) =
  match Ascii.compare a b with
  | Eq => String.ltb s t
  | Lt => true
  | Gt => false
  end.
Proof. unfold String.ltb. simpl. destruct (Ascii.compare a b); reflexivity. Qed.

Lemma ltb_empty_r (s : string) : String.ltb s "" = false.
Proof. destruct s; reflexivity. Qed.

Lemma ltb_irrefl (s : string) : String.ltb s s = false.
Proof.
  induction s as [|a s IH]; [reflexivity|].
  rewrite ltb_cons, ascii_compare_refl. exact IH.
Qed.

Lemma ltb_trans (s t u : string) :
  String.ltb s t = true -> String.ltb t u = true -> String.ltb s u = true.
Proof.
  revert t u. induction s as [|a s IH]; intros [|b t] [|c u]; try discriminate;
    try reflexivity.
  rewrite !ltb_cons.
  destruct (Ascii.compare a b) eqn:Hab; try discriminate.
  - apply Ascii.compare_eq_iff in Hab. subst b.
    destruct (Ascii.compare a c); try discriminate; eauto.
  - intros _. destruct (Ascii.compare b c) eqn:Hbc; try discriminate.
    + apply Ascii.compare_eq_iff in Hbc. subst c. now rewrite Hab.
    + now rewrite (ascii_compare_lt_trans _ _ _ Hab Hbc).
Qed.

Lemma ltb_asym (s t : string) : String.ltb s t = true -> String.ltb t s = false.
Proof.
  intros Hst. destruct (String.ltb t s) eqn:Hts; [|reflexivity].
  pose proof (ltb_trans _ _ _ Hst Hts) as Hss. now rewrite ltb_irrefl in Hss.
Qed.

Lemma compare_Lt_ltb (s t : string) : String.compare s t = Lt -> String.ltb s t = true.
Proof. unfold String.ltb. now intros ->. Qed.

Lemma compare_Gt_ltb (s t : string) : String.compare s t = Gt -> String.ltb t s = true.
Proof.
  intros Hgt. unfold String.ltb. rewrite String.compare_antisym, Hgt. reflexivity.
Qed.

(** a key that carries the prefix is not below it *)
Lemma HasPrefix_not_below (p k : string) :
  strings.HasPrefix k p = true -> String.ltb k p = false.
Proof.
  unfold strings.HasPrefix. revert k.
  induction p as [|a p IH]; intros k Hpre; [apply ltb_empty_r|].
  destruct k as [|b k]; simpl in Hpre; [discriminate|].
  destruct (ascii_dec a b) as [->|]; [|discriminate].
  rewrite ltb_cons, ascii_compare_refl. now apply IH.
Qed.

(** the seek optimisation: past a key that is above the prefix without
    carrying it, no later key carries it *)
Lemma HasPrefix_past (p k k' : string) :
  String.ltb p k = true -> strings.HasPrefix k p = false ->
  String.ltb k k' = true -> strings.HasPrefix k' p = false.
Proof.
  unfold strings.HasPrefix. revert k k'.
  induction p as [|a p IH]; intros k k' Hpk Hk Hkk'.
  - destruct k; discriminate.
  - destruct k as [|b k]; [discriminate|].
    destruct k' as [|c k']; [reflexivity|].
    rewrite ltb_cons in Hpk, Hkk'. simpl in Hk |- *.
    destruct (ascii_dec a b) as [->|Hab].
    + rewrite ascii_compare_refl in Hpk.
      destruct (Ascii.compare b c) eqn:Hbc; try discriminate.
      * apply Ascii.compare_eq_iff in Hbc. subst c.
        destruct (ascii_dec b b); [eauto|reflexivity].
      * apply ascii_compare_lt_neq in Hbc. now destruct (ascii_dec b c).
    + destruct (Ascii.compare a b) eqn:Hab'; try discriminate.
      { apply Ascii.compare_eq_iff in Hab'. contradiction. }
      destruct (Ascii.compare b c) eqn:Hbc; try discriminate.
      * apply Ascii.compare_eq_iff in Hbc. subst c. now destruct (ascii_dec a b).
      * pose proof (ascii_compare_lt_trans _ _ _ Hab' Hbc) as Hac.
        apply ascii_compare_lt_neq in Hac. now destruct (ascii_dec a c).
Qed.

(** a key that carries the prefix and is not above it is the prefix *)
Lemma HasPrefix_not_above (p k : string) :
  strings.HasPrefix k p = true -> String.ltb p k = false -> k = p.
Proof.
  unfold strings.HasPrefix. revert k.
  induction p as [|a p IH]; intros [|b k] Hpre Hlt; try reflexivity; try discriminate.
  simpl in Hpre. destruct (ascii_dec a b) as [->|]; [|discriminate].
  rewrite ltb_cons, ascii_compare_refl in Hlt. f_equal. now apply IH.
Qed.

Lemma Contains_empty (s : string) : strings.Contains s "" = true.
Proof. destruct s; reflexivity. Qed.

End KeyOrder.

(** ** The store and its iterator *)

Section StoreFacts.

Lemma dropWhile_suffix {A} (p : A -> bool) (l : list A) :
  exists front, l = front ++ dropWhile p l.
Proof.
  induction l as [|x l [front IH]]; [now exists []|].
  simpl. destruct (p x).
  - exists (x :: front). simpl. now f_equal.
  - now exists [].
Qed.

Lemma filter_none {A} (f : A -> bool) (l : list A) :
  (forall x, In x l -> f x = false) -> List.filter f l = [].
Proof.
  induction l as [|x l IH]; intros Hall; [reflexivity|]. simpl.
  rewrite (Hall x (or_introl eq_refl)). apply IH. intros y Hy. apply Hall. now right.
Qed.

Lemma elem_of_rev {A} (x : A) (l : list A) : x ∈ rev l <-> x ∈ l.
Proof. rewrite !list_elem_of_In. symmetry. apply in_rev. Qed.

Lemma dropWhile_sorted_all {A} (R : relation A) (p : A -> bool) (l : list A) :
  StronglySorted R l ->
  (forall a b, R a b -> p a = false -> p b = false) ->
  Forall (fun x => p x = false) (dropWhile p l).
Proof.
  intros Hsorted Hmono. induction Hsorted as [|x l Hl IH Hx]; simpl; [constructor|].
  destruct (p x) eqn:Hp; [exact IH|]. constructor; [exact Hp|].
  eapply Forall_impl; [exact Hx|]. intros y Hy. now apply (Hmono x).
Qed.

Lemma StronglySorted_rev {A} (R : relation A) (l : list A) :
  StronglySorted R l -> StronglySorted (flip R) (rev l).
Proof.
  induction 1 as [|a l Hl IH Ha]; simpl; [constructor|].
  apply StronglySorted_app_2; [|exact IH|repeat constructor].
  intros x1 x2 Hx1 Hx2. apply list_elem_of_singleton in Hx2. subst x2.
  rewrite Forall_forall in Ha. apply Ha.
  apply list_elem_of_In, in_rev, list_elem_of_In. exact Hx1.
Qed.

Instance before_trans : Transitive badger.before.
Proof. intros a b c. apply ltb_trans. Qed.

Lemma before_irrefl (a : badger.Item) : ~ badger.before a a.
Proof. unfold badger.before. now rewrite ltb_irrefl. Qed.

Lemma before_asym (a b : badger.Item) : badger.before a b -> ~ badger.before b a.
Proof. unfold badger.before. intros Hab. now rewrite (ltb_asym _ _ Hab). Qed.

(** a write keeps the keys ascending *)
Lemma SetEntry_ascending (store : badger.DB) (e : badger.Item) :
  badger.ascending store -> badger.ascending (badger.SetEntry store e).
Proof.
  unfold badger.ascending.
  induction 1 as [|x store Hs IH Hx]; simpl; [repeat constructor|].
  destruct (String.compare (badger.Key e) (badger.Key x)) eqn:Hcmp.
  - apply String.compare_eq_iff in Hcmp. constructor; [exact Hs|].
    unfold badger.before in *. now rewrite Hcmp.
  - apply compare_Lt_ltb in Hcmp. constructor; [now constructor|].
    constructor; [exact Hcmp|].
    eapply Forall_impl; [exact Hx|]. intros y Hy. now transitivity x.
  - apply compare_Gt_ltb in Hcmp. constructor; [exact IH|].
    clear IH Hs. induction store as [|y store IHs]; simpl; [now repeat constructor|].
    apply Forall_cons in Hx as [Hxy Hx].
    destruct (String.compare (badger.Key e) (badger.Key y)); constructor; auto.
Qed.

(** a delete keeps the keys ascending *)
Lemma Delete_ascending (store : badger.DB) (key : string) :
  badger.ascending store -> badger.ascending (badger.Delete store key).
Proof.
  unfold badger.ascending, badger.Delete.
  induction 1 as [|x store Hs IH Hx]; simpl; [constructor|].
  destruct (negb _); [|exact IH]. constructor; [exact IH|].
  rewrite Forall_forall in *. intros y Hy.
  apply Hx. apply list_elem_of_In in Hy. apply list_elem_of_In.
  now apply filter_In in Hy as [? _].
Qed.

(** reading back what was written *)
Lemma Get_SetEntry (store : badger.DB) (e : badger.Item) :
  badger.Get (badger.SetEntry store e) (badger.Key e) = Some e.
Proof.
  induction store as [|x store IH]; simpl.
  - now rewrite String.eqb_refl.
  - destruct (String.compare (badger.Key e) (badger.Key x)) eqn:Hcmp; simpl.
    + now rewrite String.eqb_refl.
    + now rewrite String.eqb_refl.
    + destruct (String.eqb_spec (badger.Key x) (badger.Key e)) as [Heq|]; [|exact IH].
      rewrite Heq in Hcmp. apply compare_Gt_ltb in Hcmp.
      now rewrite ltb_irrefl in Hcmp.
Qed.

End StoreFacts.

(** ** The scan of [ListKeys] *)

Section ScanFacts.
Context `{RE : regexp.Lib}.
Variable opts : db.ListKeysOptions.
Variable re : option regexp.Regexp.

Lemma filterKey_Match (key : string) (m : bool) :
  db.filterKey opts re key = db.Match m -> matchKey opts re key = m.
Proof.
  unfold db.filterKey, matchKey.
  destruct (String.eqb (db.Mode opts) "prefix").
  - destruct (db.SortDesc opts), (strings.HasPrefix key (db.Prefix opts)) eqn:Hp;
      try congruence.
    destruct (_ && _ && _); congruence.
  - destruct (String.eqb (db.Mode opts) "substring"); [congruence|].
    destruct (String.eqb (db.Mode opts) "regex"); [|congruence].
    destruct re; congruence.
Qed.

(** the scan is left early only by an ascending prefix query, at a key above
    the prefix that does not carry it *)
Lemma filterKey_Return (key : string) :
  db.filterKey opts re key = db.Return ->
  db.Mode opts = "prefix" /\ db.SortDesc opts = false /\
  String.ltb (db.Prefix opts) key = true /\
  strings.HasPrefix key (db.Prefix opts) = false.
Proof.
  unfold db.filterKey.
  destruct (String.eqb_spec (db.Mode opts) "prefix") as [Hmode|].
  - destruct (db.SortDesc opts), (strings.HasPrefix key (db.Prefix opts)) eqn:Hp;
      try congruence.
    destruct (negb _) eqn:Hne; simpl; [|congruence].
    unfold strings.gt. destruct (String.ltb (db.Prefix opts) key) eqn:Hgt; simpl;
      [|congruence].
    now intros _.
  - destruct (String.eqb (db.Mode opts) "substring"); [congruence|].
    destruct (String.eqb (db.Mode opts) "regex"); [|congruence].
    destruct re; congruence.
Qed.

Lemma rows_of_cons (e : badger.Item) (l : list badger.Item) :
  rows_of opts (e :: l) =
  match badger.stored e with
  | Some v => db.mkKeyItem opts e v :: rows_of opts l
  | None => rows_of opts l
  end.
Proof. unfold rows_of. simpl. now destruct (badger.stored e). Qed.

(** The rows of a scan: the entries seen are filtered by the match
    predicate, the first [Offset - skipped] matched ones are dropped, the
    unreadable ones are passed over, and the scan stops at [Limit - count]
    rows, or at one row when that is not positive. *)
Lemma scan_rows (it : badger.Iterator) (count skipped : Z) (items : list db.KeyItem) :
  (db.scan opts re it count skipped items).1 =
  items ++ take (Z.to_nat (Z.max 1 (db.Limit opts - count)))
             (rows_of opts
                (skip_offset opts (db.Offset opts - skipped)
                   (List.filter (matches opts re) (visited opts re it)))).
Proof.
  revert count skipped items.
  induction it as [|e it IH]; intros count skipped items; simpl.
  { unfold skip_offset, rows_of. destruct (String.eqb _ _); simpl;
      rewrite ?drop_nil; simpl; rewrite take_nil, app_nil_r; reflexivity. }
  unfold visited, matches, goes_on in *. simpl.
  destruct (db.filterKey opts re (badger.Key e)) as [|[|]] eqn:Hf.
  - unfold skip_offset, rows_of. destruct (String.eqb _ _); simpl;
      rewrite ?drop_nil; simpl; rewrite take_nil, app_nil_r; reflexivity.
  - simpl. rewrite (filterKey_Match _ _ Hf).
    unfold skip_offset in *.
    destruct (String.eqb (db.StartKey opts) "") eqn:Hsk; simpl.
    + destruct (skipped <? db.Offset opts) eqn:Hlt.
      * apply Z.ltb_lt in Hlt. rewrite IH.
        replace (Z.to_nat (db.Offset opts - skipped))
          with (S (Z.to_nat (db.Offset opts - (skipped + 1)))) by lia.
        reflexivity.
      * apply Z.ltb_ge in Hlt.
        assert (Hz : Z.to_nat (db.Offset opts - skipped) = 0%nat) by lia.
        rewrite Hz, drop_0, rows_of_cons. unfold badger.ValueCopy.
        destruct (badger.stored e) as [v|].
        -- destruct (count + 1 >=? db.Limit opts) eqn:Hlim.
           ++ apply Z.geb_le in Hlim. simpl.
              replace (Z.to_nat (Z.max 1 (db.Limit opts - count))) with 1%nat by lia.
              reflexivity.
           ++ rewrite Z.geb_leb in Hlim. apply Z.leb_gt in Hlim. rewrite IH, <- app_assoc.
              rewrite Hz, drop_0.
              replace (Z.to_nat (Z.max 1 (db.Limit opts - count)))
                with (S (Z.to_nat (Z.max 1 (db.Limit opts - (count + 1))))) by lia.
              reflexivity.
        -- rewrite IH, Hz, drop_0. reflexivity.
    + unfold badger.ValueCopy.
      destruct (badger.stored e) as [v|]; simpl.
      * destruct (count + 1 >=? db.Limit opts) eqn:Hlim.
        -- apply Z.geb_le in Hlim. simpl.
           replace (Z.to_nat (Z.max 1 (db.Limit opts - count))) with 1%nat by lia.
           reflexivity.
        -- rewrite Z.geb_leb in Hlim. apply Z.leb_gt in Hlim. rewrite IH, <- app_assoc.
           replace (Z.to_nat (Z.max 1 (db.Limit opts - count)))
             with (S (Z.to_nat (Z.max 1 (db.Limit opts - (count + 1))))) by lia.
           reflexivity.
      * rewrite IH. reflexivity.
  - simpl. rewrite (filterKey_Match _ _ Hf). apply IH.
Qed.

(** How a scan ends.  Either it ends without a stop on the limit, and
    [hasMore] is false; or it stops on the limit at an entry [x], whose row is
    the last one, and [hasMore] tells whether the iterator is still valid one
    step further. *)
Lemma scan_outcome (it : badger.Iterator) (count skipped : Z)
    (items rows : list db.KeyItem) (hasMore : bool) :
  db.scan opts re it count skipped items = (rows, hasMore) ->
  (hasMore = false /\
   (rows = items \/
    count + (Z.of_nat (length rows) - Z.of_nat (length items)) < db.Limit opts))
  \/
  (exists pre x v rest,
     it = pre ++ x :: rest /\ badger.stored x = Some v /\
     last rows = Some (db.mkKeyItem opts x v) /\
     db.Limit opts <= count + (Z.of_nat (length rows) - Z.of_nat (length items)) /\
     hasMore = badger.Valid rest).
Proof.
  revert count skipped items.
  induction it as [|e it IH]; intros count skipped items; simpl.
  { intros [= <- <-]. left. auto. }
  assert (Hshift : forall c s i,
    db.scan opts re it c s i = (rows, hasMore) ->
    c = count -> i = items ->
    (hasMore = false /\
     (rows = items \/
      count + (Z.of_nat (length rows) - Z.of_nat (length items)) < db.Limit opts))
    \/
    (exists pre x v rest,
       e :: it = pre ++ x :: rest /\ badger.stored x = Some v /\
       last rows = Some (db.mkKeyItem opts x v) /\
       db.Limit opts <= count + (Z.of_nat (length rows) - Z.of_nat (length items)) /\
       hasMore = badger.Valid rest)).
  { intros c s i Hscan -> ->.
    destruct (IH _ _ _ Hscan) as [?|(pre & x & v & rest & -> & ? & ? & ? & ?)];
      [now left|right].
    now exists (e :: pre), x, v, rest. }
  destruct (db.filterKey opts re (badger.Key e)) as [|[|]].
  - intros [= <- <-]. left. auto.
  - destruct (String.eqb (db.StartKey opts) "" && (skipped <? db.Offset opts)).
    { intros Hscan. now apply (Hshift _ _ _ Hscan). }
    unfold badger.ValueCopy. destruct (badger.stored e) as [v|] eqn:Hv.
    2:{ intros Hscan. now apply (Hshift _ _ _ Hscan). }
    destruct (count + 1 >=? db.Limit opts) eqn:Hlim.
    + apply Z.geb_le in Hlim. intros [= <- <-]. right.
      exists [], e, v, it. rewrite last_snoc, length_app. simpl.
      repeat split; auto. lia.
    + rewrite Z.geb_leb in Hlim. apply Z.leb_gt in Hlim. intros Hscan.
      destruct (IH _ _ _ Hscan) as [[-> Hrows]|(pre & x & w & rest & -> & ? & ? & Hle & ?)].
      * left. split; [reflexivity|]. right.
        destruct Hrows as [->|Hlt]; rewrite length_app in *; simpl in *; lia.
      * right. exists (e :: pre), x, w, rest.
        rewrite length_app in Hle. simpl in Hle. repeat split; auto. lia.
  - intros Hscan. now apply (Hshift _ _ _ Hscan).
Qed.

(** Over keys that ascend, the seek optimisation loses no match. *)
Lemma matched_visited (it : badger.Iterator) :
  (db.SortDesc opts = false -> badger.ascending it) ->
  List.filter (matches opts re) (visited opts re it) =
  List.filter (matches opts re) it.
Proof.
  unfold visited, goes_on, matches.
  induction it as [|e it IH]; intros Hasc; [reflexivity|]. simpl.
  destruct (db.filterKey opts re (badger.Key e)) as [|m] eqn:Hf.
  - apply filterKey_Return in Hf as (Hmode & Hdesc & Hgt & Hpre).
    specialize (Hasc Hdesc). apply StronglySorted_inv in Hasc as [_ Hall].
    assert (Hkey : forall k, strings.HasPrefix k (db.Prefix opts) = false ->
                             matchKey opts re k = false).
    { intros k Hk. unfold matchKey. now rewrite Hmode. }
    simpl. rewrite (Hkey _ Hpre). symmetry.
    apply filter_none. intros x Hx. rewrite Forall_forall in Hall.
    apply list_elem_of_In, Hall in Hx.
    apply Hkey. eapply HasPrefix_past; eauto.
  - simpl. rewrite IH; [reflexivity|].
    intros Hdesc. specialize (Hasc Hdesc).
    now apply StronglySorted_inv in Hasc as [? _].
Qed.

End ScanFacts.

(** ** The iterator of a query over a store *)

Section CursorFacts.
Context `{RE : regexp.Lib}.
Variable opts : db.ListKeysOptions.

Lemma directed_sorted (store : badger.DB) :
  badger.ascending store -> StronglySorted (ahead opts) (directed opts store).
Proof.
  unfold directed, ahead, beyond, badger.ascending. intros Hasc.
  destruct (db.SortDesc opts); [|exact Hasc].
  now apply StronglySorted_rev in Hasc.
Qed.

Lemma cursor_suffix (store : badger.DB) :
  exists front, directed opts store = front ++ cursor opts store.
Proof.
  unfold directed, cursor, badger.Seek.
  destruct (db.SortDesc opts).
  - destruct (String.eqb _ _); [now exists []|apply dropWhile_suffix].
  - apply dropWhile_suffix.
Qed.

Lemma cursor_ascending (store : badger.DB) :
  badger.ascending store -> db.SortDesc opts = false ->
  badger.ascending (cursor opts store).
Proof.
  intros Hasc Hdir. destruct (cursor_suffix store) as [front Hfront].
  unfold directed in Hfront. rewrite Hdir in Hfront.
  unfold badger.ascending in *. rewrite Hfront in Hasc.
  now apply StronglySorted_app_1_r in Hasc.
Qed.

Lemma cursor_elem (store : badger.DB) (e : badger.Item) :
  e ∈ cursor opts store -> e ∈ store.
Proof.
  intros He. destruct (cursor_suffix store) as [front Hfront].
  assert (Hd : e ∈ directed opts store) by (rewrite Hfront, elem_of_app; now right).
  unfold directed in Hd. destruct (db.SortDesc opts); [|exact Hd].
  exact (proj1 (elem_of_rev _ _) Hd).
Qed.

(** Where the iterator stands on [x], it is still valid one step further
    exactly when the store holds an entry beyond [x]. *)
Lemma cursor_rest (store : badger.DB) (pre rest : list badger.Item) (x : badger.Item) :
  badger.ascending store -> cursor opts store = pre ++ x :: rest ->
  badger.Valid rest = true <->
  exists e, e ∈ store /\ beyond opts (badger.Key x) e = true.
Proof.
  intros Hasc Hcur. destruct (cursor_suffix store) as [front Hfront].
  pose proof (directed_sorted store Hasc) as Hsorted.
  rewrite Hfront, Hcur in Hsorted.
  assert (Hin : forall e, e ∈ store <-> e ∈ front ++ pre ++ x :: rest).
  { intros e. rewrite <- Hcur, <- Hfront. unfold directed.
    destruct (db.SortDesc opts); [now rewrite elem_of_rev|reflexivity]. }
  split.
  - destruct rest as [|y rest]; [discriminate|]. intros _. exists y. split.
    + apply Hin. rewrite !elem_of_app, !elem_of_cons. tauto.
    + apply StronglySorted_app_1_r, StronglySorted_app_1_r in Hsorted.
      apply StronglySorted_inv in Hsorted as [_ Hall].
      now apply Forall_cons in Hall as [Hy _].
  - intros (e & He & Hbeyond). apply Hin in He.
    rewrite app_assoc in He, Hsorted.
    apply elem_of_app in He as [He|He].
    + exfalso.
      assert (Hex : ahead opts e x).
      { eapply StronglySorted_app_1_elem_of; eauto. apply elem_of_cons. now left. }
      unfold ahead, beyond in *.
      destruct (db.SortDesc opts); rewrite (ltb_asym _ _ Hex) in Hbeyond; discriminate.
    + apply elem_of_cons in He as [->|He].
      * unfold beyond in Hbeyond.
        destruct (db.SortDesc opts); rewrite ltb_irrefl in Hbeyond; discriminate.
      * destruct rest; [inversion He|reflexivity].
Qed.

(** A query on an open store is the scan of its iterator with the pattern
    it compiled. *)
Lemma ListKeys_scan (c : db.DBClient) (store : badger.DB)
    (rows : list db.KeyItem) (hasMore : bool) :
  db.db c = Some store -> db.ListKeys opts c = Ok (rows, hasMore) ->
  db.scan opts (compiled opts) (cursor opts store) 0 0 [] = (rows, hasMore).
Proof.
  unfold db.ListKeys, db.view, compiled, cursor. intros ->.
  destruct (_ && _).
  - destruct (regexp.Compile (db.Prefix opts)); [|discriminate].
    destruct (db.scan _ _ _ _ _ _). now intros [= <- <-].
  - destruct (db.scan _ _ _ _ _ _). now intros [= <- <-].
Qed.

(** The rows of a query on an open store: the matched entries from the seek
    position on, less the skipped ones, up to the page size. *)
Lemma ListKeys_rows (c : db.DBClient) (store : badger.DB)
    (rows : list db.KeyItem) (hasMore : bool) :
  db.db c = Some store -> badger.ascending store ->
  db.ListKeys opts c = Ok (rows, hasMore) ->
  rows = take (Z.to_nat (Z.max 1 (db.Limit opts)))
           (rows_of opts
              (skip_offset opts (db.Offset opts)
                 (List.filter (matches opts (compiled opts)) (cursor opts store)))).
Proof.
  intros Hdb Hasc Hlist.
  pose proof (ListKeys_scan _ _ _ _ Hdb Hlist) as Hscan.
  pose proof (scan_rows opts (compiled opts) (cursor opts store) 0 0 []) as Hrows.
  rewrite Hscan in Hrows. simpl in Hrows.
  rewrite matched_visited in Hrows by (now apply cursor_ascending).
  now rewrite !Z.sub_0_r in Hrows.
Qed.

End CursorFacts.

(** ** The value classifier and the preview *)

Section PreviewFacts.

Lemma isBinary_loop_spec (n : nat) (data : list byte) :
  db.isBinary_loop n data = true <-> x00 ∈ take n data.
Proof.
  revert data. induction n as [|n IH]; intros [|b data]; simpl;
    try (split; [discriminate|intros Hin; inversion Hin]).
  destruct (Byte.eqb b x00) eqn:Hb.
  - apply Byte.byte_dec_bl in Hb. subst b. split; [intros _; left|reflexivity].
  - apply Byte.eqb_false in Hb. rewrite IH, elem_of_cons. split; [now right|].
    intros [Heq|Hin]; [congruence|exact Hin].
Qed.

(** a value is binary exactly when one of its first 512 bytes is NUL *)
Lemma isBinary_spec (data : list byte) :
  db.isBinary data = true <-> x00 ∈ take 512 data.
Proof.
  unfold db.isBinary. rewrite isBinary_loop_spec.
  destruct (512 <? length data)%nat eqn:Hlen; [reflexivity|].
  apply Nat.ltb_ge in Hlen. now rewrite !take_ge by lia.
Qed.

End PreviewFacts.

(** ** Properties of the query engine *)

Section QueryProperties.
Context `{RE : regexp.Lib}.

(** C6.  The preview of a value [v] for a requested length [p], as every row
    of [ListKeys] carries it: with a NUL byte among the first 512 bytes of
    [v] it is ["[Binary <n> bytes]"], [n] the full length of [v]; otherwise
    it is [v] verbatim when [v] is no longer than the effective length, and
    the first bytes of [v] up to that length followed by ["..."] when it is
    longer.  The effective length is [p], or 100 when [p <= 0]. *)
Theorem preview_binary_or_truncated (opts : db.ListKeysOptions)
    (item : badger.Item) (v : list byte) :
  let p := db.PreviewChars opts in
  let effective := if p <=? 0 then 100 else p in
  let shown := db.ValuePreview (db.mkKeyItem opts item v) in
  (x00 ∈ take 512 v ->
   shown = "[Binary " +:+ strings.itoa (Z.of_nat (length v)) +:+ " bytes]") /\
  (x00 ∉ take 512 v -> Z.of_nat (length v) <= effective ->
   shown = string_of_list_byte v) /\
  (x00 ∉ take 512 v -> effective < Z.of_nat (length v) ->
   shown = string_of_list_byte (take (Z.to_nat effective) v) +:+ "...").
Proof.
  intros p effective shown. subst p effective shown. simpl. unfold db.preview.
  repeat split.
  - intros Hnul. apply isBinary_spec in Hnul. now rewrite Hnul.
  - intros Hnul Hlen. rewrite <- isBinary_spec in Hnul.
    apply not_true_is_false in Hnul. rewrite Hnul.
    destruct (_ >? _) eqn:Hgt; [|reflexivity].
    rewrite Z.gtb_ltb in Hgt. apply Z.ltb_lt in Hgt. lia.
  - intros Hnul Hlen. rewrite <- isBinary_spec in Hnul.
    apply not_true_is_false in Hnul. rewrite Hnul.
    destruct (_ >? _) eqn:Hgt; [reflexivity|].
    rewrite Z.gtb_ltb in Hgt. apply Z.ltb_ge in Hgt. lia.
Qed.

(** C1, as the code has it.  A query on an open store reports [hasMore]
    exactly when it stopped on the limit and the store holds some entry
    beyond the last returned row in the direction of the scan, whether that
    entry matches or not: the step past the limit only asks whether the
    iterator is still valid.  The page is not affected by that step: it is
    the matched, unskipped, readable entries up to the page size, and never
    longer than the page size. *)
Theorem ListKeys_hasMore_entry_beyond (opts : db.ListKeysOptions) (c : db.DBClient)
    (store : badger.DB) (rows : list db.KeyItem) (hasMore : bool) :
  db.db c = Some store -> badger.ascending store ->
  db.ListKeys opts c = Ok (rows, hasMore) ->
  (hasMore = true <->
   db.Limit opts <= Z.of_nat (length rows) /\
   exists r, last rows = Some r /\
     exists e, e ∈ store /\ beyond opts (db.Key r) e = true) /\
  Z.of_nat (length rows) <= Z.max 1 (db.Limit opts) /\
  rows = take (Z.to_nat (Z.max 1 (db.Limit opts)))
           (rows_of opts
              (skip_offset opts (db.Offset opts)
                 (List.filter (matches opts (compiled opts)) (cursor opts store)))).
Proof.
  intros Hdb Hasc Hlist.
  pose proof (ListKeys_rows opts _ _ _ _ Hdb Hasc Hlist) as Hrows.
  split; [|split; [|exact Hrows]].
  2:{ rewrite Hrows at 1. rewrite length_take. lia. }
  pose proof (ListKeys_scan opts _ _ _ _ Hdb Hlist) as Hscan.
  apply scan_outcome in Hscan. simpl in Hscan.
  destruct Hscan as [[-> Hnone]|(pre & x & v & rest & Hcur & Hv & Hlast & Hle & ->)].
  - split; [discriminate|]. intros (Hle & r & Hlast & _).
    destruct Hnone as [->|Hlt]; [discriminate|lia].
  - rewrite (cursor_rest opts store pre rest x Hasc Hcur). split.
    + intros Hbeyond. split; [lia|]. now exists (db.mkKeyItem opts x v).
    + intros (_ & r & Hr & Hbeyond). rewrite Hlast in Hr.
      injection Hr as <-. exact Hbeyond.
Qed.

(** C8.  With a positive limit a query returns at most [Limit] rows.  The
    rows are taken from the entries that match, in the order of the scan from
    the seek position: without a start key the first [Offset] matched entries
    are dropped before any is collected; with a start key none is dropped and
    the scan starts at the start key.  Entries that do not match are
    filtered out before either count applies. *)
Theorem ListKeys_limit_offset_window (opts : db.ListKeysOptions) (c : db.DBClient)
    (store : badger.DB) (rows : list db.KeyItem) (hasMore : bool) :
  db.db c = Some store -> badger.ascending store ->
  0 < db.Limit opts ->
  db.ListKeys opts c = Ok (rows, hasMore) ->
  let matched := List.filter (matches opts (compiled opts)) (cursor opts store) in
  Z.of_nat (length rows) <= db.Limit opts /\
  (db.StartKey opts = "" ->
   rows = take (Z.to_nat (db.Limit opts))
            (rows_of opts (drop (Z.to_nat (db.Offset opts)) matched))) /\
  (db.StartKey opts <> "" ->
   cursor opts store = badger.Seek store (db.SortDesc opts) (db.StartKey opts) /\
   rows = take (Z.to_nat (db.Limit opts)) (rows_of opts matched)).
Proof.
  intros Hdb Hasc Hlim Hlist matched.
  pose proof (ListKeys_rows opts _ _ _ _ Hdb Hasc Hlist) as Hrows.
  fold matched in Hrows. rewrite Z.max_r in Hrows by lia.
  unfold skip_offset in Hrows. repeat split.
  - rewrite Hrows. rewrite length_take. lia.
  - intros Hsk. now rewrite Hsk in Hrows.
  - unfold cursor, db.startKey.
    now destruct (String.eqb_spec (db.StartKey opts) "").
  - now destruct (String.eqb_spec (db.StartKey opts) "").
Qed.

(** C10.  With a limit that is not positive, a query for which some entry
    can be collected (it matches, is past the offset and can be read) returns
    exactly one row, the first such entry: the limit is tested only after a
    row has been appended. *)
Theorem ListKeys_nonpositive_limit_one_row (opts : db.ListKeysOptions)
    (c : db.DBClient) (store : badger.DB) (rows : list db.KeyItem) (hasMore : bool) :
  db.db c = Some store -> badger.ascending store ->
  db.Limit opts <= 0 ->
  db.ListKeys opts c = Ok (rows, hasMore) ->
  let collectable :=
    rows_of opts
      (skip_offset opts (db.Offset opts)
         (List.filter (matches opts (compiled opts)) (cursor opts store))) in
  collectable <> [] ->
  length rows = 1%nat /\ rows = take 1 collectable.
Proof.
  intros Hdb Hasc Hlim Hlist collectable Hsome.
  pose proof (ListKeys_rows opts _ _ _ _ Hdb Hasc Hlist) as Hrows.
  fold collectable in Hrows. rewrite Z.max_l in Hrows by lia.
  change (Z.to_nat 1) with 1%nat in Hrows. split; [|exact Hrows].
  rewrite Hrows. destruct collectable; [contradiction|reflexivity].
Qed.

(** C7.  For a regex query: when the pattern does not compile, the query
    returns an error and no rows, on an open store the invalid-pattern error
    (the pattern is compiled once, before the scan); and with the empty
    pattern every key matches, and the query succeeds on an open store. *)
Theorem regex_invalid_pattern_or_match_all (opts : db.ListKeysOptions) :
  db.Mode opts = "regex" ->
  (forall cause, regexp.Compile (db.Prefix opts) = Err cause ->
     forall c,
       (exists err, db.ListKeys opts c = Err err) /\
       (forall store, db.db c = Some store ->
          db.ListKeys opts c = Err (ErrInvalidRegex cause))) /\
  (db.Prefix opts = "" ->
     (forall key, db.filterKey opts (compiled opts) key = db.Match true) /\
     (forall key, matchKey opts (compiled opts) key = true) /\
     (forall c store, db.db c = Some store ->
        exists rows hasMore, db.ListKeys opts c = Ok (rows, hasMore))).
Proof.
  intros Hmode. split.
  - intros cause Hfail c.
    assert (Hpat : String.eqb (db.Prefix opts) "" = false).
    { apply String.eqb_neq. intros Hempty. rewrite Hempty in Hfail.
      destruct regexp.Compile_empty as [r Hr]. congruence. }
    assert (Hopen : forall store, db.db c = Some store ->
              db.ListKeys opts c = Err (ErrInvalidRegex cause)).
    { intros store Hdb. unfold db.ListKeys, db.view.
      now rewrite Hdb, Hmode, Hpat, Hfail. }
    split; [|exact Hopen].
    destruct (db.db c) as [store|] eqn:Hdb; [eauto|].
    exists ErrNotOpen. unfold db.ListKeys. now rewrite Hdb.
  - intros Hempty.
    assert (Hre : compiled opts = None).
    { unfold compiled. now rewrite Hmode, Hempty. }
    assert (Hall : forall key, db.filterKey opts (compiled opts) key = db.Match true).
    { intros key. unfold db.filterKey. now rewrite Hmode, Hre. }
    repeat split; [exact Hall| |].
    + intros key. now apply filterKey_Match.
    + intros c store Hdb. unfold db.ListKeys, db.view.
      rewrite Hdb, Hmode, Hempty. simpl.
      destruct (db.scan _ _ _ _ _ _) as [rows hasMore]. eauto.
Qed.

End QueryProperties.

(** ** Prefix queries in the two directions *)

Section PrefixDirection.
Context `{RE : regexp.Lib}.

Lemma filter_dropWhile {A} (f p : A -> bool) (l : list A) :
  (forall x, p x = true -> f x = false) ->
  List.filter f (dropWhile p l) = List.filter f l.
Proof.
  intros Hpf. induction l as [|x l IH]; [reflexivity|]. simpl.
  destruct (p x) eqn:Hp; [|reflexivity]. now rewrite (Hpf x Hp).
Qed.

(** Every row is the row of a readable entry that the iterator reaches and
    that matches. *)
Lemma rows_from_cursor (opts : db.ListKeysOptions) (c : db.DBClient)
    (store : badger.DB) (rows : list db.KeyItem) (hasMore : bool) (r : db.KeyItem) :
  db.db c = Some store -> badger.ascending store ->
  db.ListKeys opts c = Ok (rows, hasMore) ->
  r ∈ rows ->
  exists e v, e ∈ cursor opts store /\ matches opts (compiled opts) e = true /\
              badger.stored e = Some v /\ r = db.mkKeyItem opts e v.
Proof.
  intros Hdb Hasc Hlist Hr.
  rewrite (ListKeys_rows opts _ _ _ _ Hdb Hasc Hlist) in Hr.
  apply elem_of_take in Hr as (i & Hr & _). apply list_elem_of_lookup_2 in Hr.
  unfold rows_of in Hr. apply list_elem_of_omap in Hr as (e & He & Hrow).
  destruct (badger.stored e) as [v|] eqn:Hv; [|discriminate]. injection Hrow as <-.
  assert (Hm : e ∈ List.filter (matches opts (compiled opts)) (cursor opts store)).
  { unfold skip_offset in He. destruct (String.eqb _ _); [|exact He].
    apply list_elem_of_lookup_1 in He as [i' He]. rewrite lookup_drop in He.
    now apply list_elem_of_lookup_2 in He. }
  apply list_elem_of_In, filter_In in Hm as [Hin Hm].
  exists e, v. repeat split; auto. now apply list_elem_of_In.
Qed.

(** Every row of a prefix query carries the prefix, in either direction. *)
Lemma prefix_rows_sound (opts : db.ListKeysOptions) (c : db.DBClient)
    (store : badger.DB) (rows : list db.KeyItem) (hasMore : bool) (r : db.KeyItem) :
  db.Mode opts = "prefix" ->
  db.db c = Some store -> badger.ascending store ->
  db.ListKeys opts c = Ok (rows, hasMore) ->
  r ∈ rows -> strings.HasPrefix (db.Key r) (db.Prefix opts) = true.
Proof.
  intros Hmode Hdb Hasc Hlist Hr.
  destruct (rows_from_cursor _ _ _ _ _ _ Hdb Hasc Hlist Hr) as (e & v & _ & Hm & _ & ->).
  unfold matches, matchKey in Hm. now rewrite Hmode in Hm.
Qed.

(** X12.  A descending prefix query with a pattern and no start key returns
    no key but the pattern itself: the reverse seek to the pattern leaves
    every longer key behind the iterator. *)
Lemma prefix_descending_exact_key_only (opts : db.ListKeysOptions) (c : db.DBClient)
    (store : badger.DB) (rows : list db.KeyItem) (hasMore : bool) (r : db.KeyItem) :
  db.Mode opts = "prefix" -> db.SortDesc opts = true -> db.StartKey opts = "" ->
  db.Prefix opts <> "" ->
  db.db c = Some store -> badger.ascending store ->
  db.ListKeys opts c = Ok (rows, hasMore) ->
  r ∈ rows -> db.Key r = db.Prefix opts.
Proof.
  intros Hmode Hdir Hsk Hpat Hdb Hasc Hlist Hr.
  destruct (rows_from_cursor _ _ _ _ _ _ Hdb Hasc Hlist Hr) as (e & v & He & Hm & _ & ->).
  simpl. unfold matches, matchKey in Hm. rewrite Hmode in Hm. simpl in Hm.
  apply HasPrefix_not_above; [exact Hm|].
  unfold cursor, db.startKey, badger.Seek in He. rewrite Hmode, Hdir, Hsk in He.
  simpl in He. apply String.eqb_neq in Hpat. rewrite Hpat in He.
  pose proof (dropWhile_sorted_all (flip badger.before)
                (fun e => String.ltb (db.Prefix opts) (badger.Key e)) (rev store)
                (StronglySorted_rev _ _ Hasc)) as Hall.
  rewrite Forall_forall in Hall. apply Hall; [|exact He].
  intros a b Hba Ha. unfold flip, badger.before in Hba.
  destruct (String.ltb (db.Prefix opts) (badger.Key b)) eqn:Hb; [|reflexivity].
  now rewrite (ltb_trans _ _ _ Hb Hba) in Ha.
Qed.

(** An ascending prefix query without a start key omits no stored key that
    carries the prefix: its rows are the readable entries with the prefix, in
    key order, less the first [Offset], up to the page size. *)
Lemma prefix_ascending_complete (opts : db.ListKeysOptions) (c : db.DBClient)
    (store : badger.DB) (rows : list db.KeyItem) (hasMore : bool) :
  db.Mode opts = "prefix" -> db.SortDesc opts = false -> db.StartKey opts = "" ->
  db.db c = Some store -> badger.ascending store ->
  db.ListKeys opts c = Ok (rows, hasMore) ->
  rows = take (Z.to_nat (Z.max 1 (db.Limit opts)))
           (rows_of opts
              (drop (Z.to_nat (db.Offset opts))
                 (List.filter
                    (fun e => strings.HasPrefix (badger.Key e) (db.Prefix opts))
                    store))).
Proof.
  intros Hmode Hdir Hsk Hdb Hasc Hlist.
  rewrite (ListKeys_rows opts _ _ _ _ Hdb Hasc Hlist).
  unfold skip_offset, cursor, db.startKey, badger.Seek, matches, matchKey.
  rewrite Hmode, Hdir, Hsk. simpl.
  rewrite filter_dropWhile; [reflexivity|].
  intros x Hx. destruct (strings.HasPrefix _ _) eqn:Hp; [|reflexivity].
  apply HasPrefix_not_below in Hp. congruence.
Qed.

End PrefixDirection.

(** ** Worked queries *)

Section WorkedQueries.

Lemma users_ascending : badger.ascending sample.users.
Proof. repeat constructor. Qed.

(** C1, as stated, fails: over the keys [a1], [a2], [b], the ascending prefix
    query for ["a"] with limit 2 returns [a1] and [a2] and reports [hasMore],
    although the entry it peeked at, [b], does not match the prefix and no
    further match exists. *)
Lemma hasMore_peek_unmatched :
  let q := sample.query "a" "prefix" false 2 0 in
  db.ListKeys (RE := sample.literal) q (sample.client sample.users) =
    Ok ([sample.row "a1" "x"; sample.row "a2" "y"], true) /\
  cursor q sample.users =
    [sample.entry "a1" "x"; sample.entry "a2" "y"; sample.entry "b" "z"] /\
  matchKey (RE := sample.literal) q (compiled (RE := sample.literal) q) "b" = false /\
  List.filter (matches (RE := sample.literal) q (compiled (RE := sample.literal) q))
    [sample.entry "b" "z"] = [].
Proof. vm_compute. repeat split. Qed.

(** C2 on the keys [a1], [a2], [b]: with offset 0 and limit 10 the ascending
    prefix query for ["a"] returns [a1], [a2]; the descending one returns no
    row, not [a2], [a1]. *)
Lemma descending_not_reverse_of_ascending :
  db.ListKeys (RE := sample.literal) (sample.query "a" "prefix" false 10 0)
    (sample.client sample.users) =
    Ok ([sample.row "a1" "x"; sample.row "a2" "y"], false) /\
  db.ListKeys (RE := sample.literal) (sample.query "a" "prefix" true 10 0)
    (sample.client sample.users) = Ok ([], false).
Proof. vm_compute. split; reflexivity. Qed.

(** C3 on the single key [user:1]: the descending prefix query for ["user:"]
    with offset 0 and limit 10 omits it, although it carries the prefix and
    lies inside the window; the reverse seek lands below every longer key. *)
Lemma descending_prefix_omits_match :
  let store := [sample.entry "user:1" "v"] in
  let q := sample.query "user:" "prefix" true 10 0 in
  strings.HasPrefix "user:1" (db.Prefix q) = true /\
  badger.Seek store true (db.startKey q) = [] /\
  db.ListKeys (RE := sample.literal) q (sample.client store) = Ok ([], false).
Proof. vm_compute. repeat split. Qed.

End WorkedQueries.

(** ** Properties of the dispatcher and of the upload sessions *)

Section SessionProperties.
Context `{RE : regexp.Lib} `{HO : badger.Host} `{B64 : base64.StdEncoding}
        `{JS : api.Json} `{RT : runtime.Memory}.


(** a key that an update accepts passes each check of [txn.modify] *)
Lemma modify_error_None (key : string) :
  badger.modify_error key = None <->
  String.eqb key "" = false /\ badger.reserved key = false /\
  badger.oversized key = false.
Proof.
  unfold badger.modify_error.
  destruct (String.eqb key ""), (badger.reserved key), (badger.oversized key);
    split; try discriminate; auto; intros (? & ? & ?); discriminate.
Qed.

(** a key that can be read is a key that an update accepts *)
Lemma GetValue_Ok_accepted (c : db.DBClient) (key : string) (val : list byte) :
  db.GetValue c key = Ok val -> badger.modify_error key = None.
Proof.
  unfold db.GetValue, badger.View_Get. intros Hget. apply modify_error_None.
  destruct (db.db c); [|discriminate].
  destruct (String.eqb key ""); [discriminate|].
  destruct (badger.reserved key); [discriminate|].
  destruct (badger.oversized key); [discriminate|]. auto.
Qed.

(** the read of a key that an update accepts is the lookup *)
Lemma GetValue_accepted (c : db.DBClient) (store : badger.DB) (key : string) :
  db.db c = Some store -> badger.modify_error key = None ->
  db.GetValue c key =
    match badger.Get store key with
    | Some item =>
      match badger.ValueCopy item with
      | Err text => Err (ErrLibrary text)
      | Ok val => Ok val
      end
    | None => Err (ErrLibrary "Key not found")
    end.
Proof.
  intros Hdb Hkey. apply modify_error_None in Hkey as (Hne & Hres & Hover).
  unfold db.GetValue, badger.View_Get. rewrite Hdb, Hne, Hres, Hover. simpl.
  now destruct (badger.Get store key).
Qed.

(** a write under a key that the store accepts puts one entry in place *)
Lemma SetValue_accepted (c : db.DBClient) (store : badger.DB) (key : string)
    (value : list byte) (ttl : Z) :
  db.db c = Some store -> badger.modify_error key = None ->
  exists e,
    db.SetValue c key value ttl =
      ({| db.path := db.path c; db.db := Some (badger.SetEntry store e) |}, None) /\
    badger.Key e = key /\
    badger.stored e = Some value /\
    badger.ExpiresAt e =
      if ttl >? 0 then badger.WithTTL (time.int64 (ttl * time.Second)) else 0.
Proof.
  intros Hdb Hkey. unfold db.SetValue, badger.Update_SetEntry. rewrite Hdb. simpl.
  rewrite Hkey. eexists. split; [reflexivity|]. repeat split.
Qed.

(** a write under a key that the store refuses changes nothing *)
Lemma SetValue_refused (c : db.DBClient) (store : badger.DB) (key text : string)
    (value : list byte) (ttl : Z) :
  db.db c = Some store -> badger.modify_error key = Some text ->
  db.SetValue c key value ttl = (c, Some (ErrLibrary text)).
Proof.
  intros Hdb Hkey. unfold db.SetValue, badger.Update_SetEntry. rewrite Hdb. simpl.
  now rewrite Hkey.
Qed.

(** the entry that a write puts in place, and its read when it does not
    expire *)
Lemma GetValue_SetValue (c : db.DBClient) (store : badger.DB) (key : string)
    (value : list byte) (ttl : Z) :
  db.db c = Some store -> badger.modify_error key = None ->
  let c' := (db.SetValue c key value ttl).1 in
  (db.SetValue c key value ttl).2 = None /\
  (exists store' e,
     db.db c' = Some store' /\
     badger.Get store' key = Some e /\
     badger.stored e = Some value /\
     badger.ExpiresAt e =
       if ttl >? 0 then badger.WithTTL (time.int64 (ttl * time.Second)) else 0) /\
  (ttl <= 0 -> db.GetValue c' key = Ok value).
Proof.
  intros Hdb Hkey c'. subst c'.
  destruct (SetValue_accepted c store key value ttl Hdb Hkey)
    as (e & -> & Hk & Hv & Hx). simpl.
  assert (Hget : badger.Get (badger.SetEntry store e) key = Some e).
  { rewrite <- Hk. apply Get_SetEntry. }
  split; [reflexivity|]. split.
  - exists (badger.SetEntry store e), e. auto.
  - intros _.
    rewrite (GetValue_accepted {| db.path := db.path c;
                                  db.db := Some (badger.SetEntry store e) |}
               (badger.SetEntry store e) key eq_refl Hkey).
    rewrite Hget. unfold badger.ValueCopy. now rewrite Hv.
Qed.


(** C9.  [put_value] on a request id that has a live session, whatever its
    buffer holds, with a value length that the machine can allocate,
    succeeds and leaves that session with an empty buffer: the bytes
    appended so far are gone.  No other session, nor the store, nor the
    output is touched.  With a value length that cannot be allocated, a
    negative one among them, the call panics instead. *)
Theorem put_value_resets_live_session (h : api.Handler) (reqID : string)
    (params : api.RawMessage) (p : api.PutValueParams) (old : list byte) :
  api.Unmarshal_PutValueParams params = Ok p ->
  api.chunkBuffer h !! reqID = Some old ->
  (runtime.allocatable (api.ValueLength p) = true ->
   exists h',
     api.handlePutValue h reqID params = Done (h', Ok api.nil) /\
     api.chunkBuffer h' !! reqID = Some [] /\
     (forall id, id <> reqID -> api.chunkBuffer h' !! id = api.chunkBuffer h !! id) /\
     api.dbClient h' = api.dbClient h /\
     api.out h' = api.out h) /\
  (runtime.allocatable (api.ValueLength p) = false \/ api.ValueLength p < 0 ->
   api.handlePutValue h reqID params = Panic).
Proof.
  intros Hp _. unfold api.handlePutValue. rewrite Hp. split.
  - intros ->. eexists. split; [reflexivity|]. simpl. repeat split.
    + apply lookup_insert_eq.
    + intros id Hid. now apply lookup_insert_ne.
  - intros Hcap.
    destruct (runtime.allocatable (api.ValueLength p)) eqn:Hgrant; [|reflexivity].
    destruct Hcap as [Hcap|Hneg]; [discriminate|].
    apply runtime.allocatable_nonneg in Hgrant. lia.
Qed.

(** C5, as the code has it.  A line that does not decode is answered with
    code 1003.  A decoded request of an unknown kind and a request whose
    handler fails are both answered with code 1000, and differ by their
    message only.  Each answer carries the id of the request as decoded. *)
Theorem handleLine_error_codes (h : api.Handler) (line : list byte) :
  let req := (api.Unmarshal_Request line).1 in
  (forall text, (api.Unmarshal_Request line).2 = Some text ->
     let h' := api.sendError h (api.ID req) 1003 "Invalid request format" in
     api.handleLine h line = Done h' /\
     last_error_code h' = Some 1003) /\
  ((api.Unmarshal_Request line).2 = None -> api.dispatch h req = None ->
     let h' := api.sendError h (api.ID req) 1000 "Unknown request type" in
     api.handleLine h line = Done h' /\
     last_error_code h' = Some 1000) /\
  (forall h1 err, (api.Unmarshal_Request line).2 = None ->
     api.dispatch h req = Some (Done (h1, Err err)) ->
     let h' := api.sendError h1 (api.ID req) 1000 (Error_text err) in
     api.handleLine h line = Done h' /\
     last_error_code h' = Some 1000).
Proof.
  intros req. subst req. unfold api.handleLine.
  destruct (api.Unmarshal_Request line) as [req err]. simpl.
  assert (Hcode : forall h0 id code msg,
            last_error_code (api.sendError h0 id code msg) = Some code).
  { intros. unfold last_error_code, api.sendError, api.writeJSON. simpl.
    now rewrite last_snoc. }
  split; [|split].
  - intros text ->. split; [reflexivity|apply Hcode].
  - intros -> Hd. rewrite Hd. split; [reflexivity|apply Hcode].
  - intros h1 e -> Hd. rewrite Hd. split; [reflexivity|apply Hcode].
Qed.

End SessionProperties.

(** ** Worked examples of the properties *)

Section WorkedProperties.

(** the preview of ["hello"] for a requested length of 3 *)
Lemma preview_binary_or_truncated_witness :
  db.ValuePreview
    (db.mkKeyItem
       {| db.Prefix := ""; db.Mode := "prefix"; db.SortDesc := false;
          db.Limit := 10; db.Offset := 0; db.StartKey := ""; db.PreviewChars := 3 |}
       (sample.entry "k" "hello") (list_byte_of_string "hello")) = "hel...".
Proof.
  refine (proj2 (proj2 (preview_binary_or_truncated _ _ _)) _ _).
  - rewrite <- isBinary_spec. vm_compute. discriminate.
  - vm_compute. reflexivity.
Defined.

(** the second page of size 1 over the keys [a1], [a2], [b] *)
Lemma ListKeys_hasMore_entry_beyond_witness :
  let q := sample.query "a" "prefix" false 1 1 in
  db.ListKeys (RE := sample.literal) q (sample.client sample.users) =
    Ok ([sample.row "a2" "y"], true) /\
  (true = true <->
   db.Limit q <= 1 /\
   exists r, last [sample.row "a2" "y"] = Some r /\
     exists e, e ∈ sample.users /\ beyond q (db.Key r) e = true).
Proof.
  split; [reflexivity|].
  exact (proj1 (ListKeys_hasMore_entry_beyond (RE := sample.literal)
                  (sample.query "a" "prefix" false 1 1)
                  (sample.client sample.users) sample.users
                  [sample.row "a2" "y"] true eq_refl users_ascending eq_refl)).
Defined.

Lemma ListKeys_limit_offset_window_witness :
  let q := sample.query "a" "substring" true 2 1 in
  db.ListKeys (RE := sample.literal) q (sample.client sample.users) =
    Ok ([sample.row "a1" "x"], false) /\
  Z.of_nat (length [sample.row "a1" "x"]) <= 2.
Proof.
  split; [reflexivity|].
  exact (proj1 (ListKeys_limit_offset_window (RE := sample.literal)
                  (sample.query "a" "substring" true 2 1)
                  (sample.client sample.users) sample.users
                  [sample.row "a1" "x"] false eq_refl users_ascending eq_refl eq_refl)).
Defined.

Lemma ListKeys_nonpositive_limit_one_row_witness :
  let q := sample.query "a" "prefix" false 0 0 in
  db.ListKeys (RE := sample.literal) q (sample.client sample.users) =
    Ok ([sample.row "a1" "x"], true) /\
  length [sample.row "a1" "x"] = 1%nat.
Proof.
  split; [reflexivity|].
  refine (proj1 (ListKeys_nonpositive_limit_one_row (RE := sample.literal)
                   (sample.query "a" "prefix" false 0 0)
                   (sample.client sample.users) sample.users
                   [sample.row "a1" "x"] true eq_refl users_ascending _ eq_refl _)).
  - vm_compute. discriminate.
  - vm_compute. discriminate.
Defined.

Lemma regex_invalid_pattern_or_match_all_witness :
  (exists err,
     db.ListKeys (RE := sample.literal) (sample.query "(" "regex" false 10 0)
       (sample.client sample.users) = Err err) /\
  matchKey (RE := sample.literal) (sample.query "" "regex" false 10 0)
    (compiled (RE := sample.literal) (sample.query "" "regex" false 10 0)) "b" = true.
Proof.
  split.
  - exact (proj1 (proj1 (regex_invalid_pattern_or_match_all (RE := sample.literal)
                           (sample.query "(" "regex" false 10 0) eq_refl)
                    "missing closing )" eq_refl (sample.client sample.users))).
  - exact (proj1 (proj2 (proj2 (regex_invalid_pattern_or_match_all (RE := sample.literal)
                                  (sample.query "" "regex" false 10 0) eq_refl)
                           eq_refl)) "b").
Defined.

(** C5, as stated, fails: the unknown request kind [bogus] and the failed
    [put_commit] on a session that does not exist are answered with the same
    code, 1000. *)
Lemma unknown_kind_shares_code_with_failed_operation :
  exists unknown failed,
    api.handleLine (RE := sample.literal) (HO := sample.host) (B64 := sample.plain)
      (JS := sample.json) (RT := sample.memory)
      sample.handler (list_byte_of_string "bogus") = Done unknown /\
    api.handleLine (RE := sample.literal) (HO := sample.host) (B64 := sample.plain)
      (JS := sample.json) (RT := sample.memory)
      sample.handler (list_byte_of_string "commit") = Done failed /\
    api.out unknown = [error_response "7" 1000 "Unknown request type"] /\
    api.out failed = [error_response "8" 1000 "unknown upload session: none"] /\
    last_error_code unknown = last_error_code failed.
Proof.
  do 2 eexists. split; [reflexivity|]. split; [reflexivity|].
  vm_compute. repeat split.
Qed.

Lemma handleLine_error_codes_witness :
  api.handleLine (RE := sample.literal) (HO := sample.host) (B64 := sample.plain)
    (JS := sample.json) (RT := sample.memory)
    sample.handler (list_byte_of_string "{") =
    Done (api.sendError sample.handler "" 1003 "Invalid request format") /\
  last_error_code (api.sendError sample.handler "" 1003 "Invalid request format") =
    Some 1003 /\
  api.handleLine (RE := sample.literal) (HO := sample.host) (B64 := sample.plain)
    (JS := sample.json) (RT := sample.memory)
    sample.handler (list_byte_of_string "bogus") =
    Done (api.sendError sample.handler "7" 1000 "Unknown request type") /\
  last_error_code (api.sendError sample.handler "7" 1000 "Unknown request type") =
    Some 1000.
Proof.
  destruct (proj1 (handleLine_error_codes (RE := sample.literal)
                     (HO := sample.host) (B64 := sample.plain) (JS := sample.json)
                     (RT := sample.memory)
                     sample.handler (list_byte_of_string "{"))
              "invalid character" eq_refl) as [Hline Hcode].
  destruct (proj1 (proj2 (handleLine_error_codes (RE := sample.literal)
                            (HO := sample.host) (B64 := sample.plain)
                            (JS := sample.json) (RT := sample.memory)
                            sample.handler (list_byte_of_string "bogus")))
              eq_refl eq_refl) as [Hline' Hcode'].
  exact (conj Hline (conj Hcode (conj Hline' Hcode'))).
Defined.


(** re-initialising the session ["2"] that already holds three bytes *)
Lemma put_value_resets_live_session_witness :
  let h := api.with_chunkBuffer sample.handler {[ "2" := list_byte_of_string "hel" ]} in
  let init := sample.PutValue {| api.pv_Key := "k"; api.ValueLength := 5; api.pv_TTL := 0 |} in
  api.chunkBuffer h !! "2" = Some (list_byte_of_string "hel") /\
  exists h',
    api.handlePutValue (JS := sample.json) (RT := sample.memory) h "2" init =
      Done (h', Ok api.nil) /\
    api.chunkBuffer h' !! "2" = Some [].
Proof.
  intros h init.
  assert (Hlive : api.chunkBuffer h !! "2" = Some (list_byte_of_string "hel"))
    by reflexivity.
  split; [exact Hlive|].
  destruct (proj1 (put_value_resets_live_session (JS := sample.json)
                     (RT := sample.memory) h "2" init
                     _ (list_byte_of_string "hel") eq_refl Hlive) eq_refl)
    as (h' & Hh & Hbuf & _).
  exists h'. exact (conj Hh Hbuf).
Defined.

End WorkedProperties.

(** * Part III: further properties of the code *)

(** ** The life cycle of a client and the point operations *)

Section ClientProperties.
Context `{HO : badger.Host}.


Lemma Get_Delete (store : badger.DB) (key : string) :
  badger.Get (badger.Delete store key) key = None.
Proof.
  unfold badger.Delete. induction store as [|x store IH]; [reflexivity|]. simpl.
  destruct (String.eqb (badger.Key x) key) eqn:Hx; simpl; [exact IH|].
  now rewrite Hx.
Qed.

Lemma Get_Delete_other (store : badger.DB) (key key' : string) :
  key' <> key ->
  badger.Get (badger.Delete store key) key' = badger.Get store key'.
Proof.
  intros Hne. unfold badger.Delete.
  induction store as [|x store IH]; [reflexivity|]. simpl.
  destruct (String.eqb_spec (badger.Key x) key) as [Hx|Hx]; simpl.
  - rewrite IH. destruct (String.eqb_spec (badger.Key x) key'); [congruence|reflexivity].
  - now rewrite IH.
Qed.

Lemma Delete_absent (store : badger.DB) (key : string) :
  badger.Get store key = None -> badger.Delete store key = store.
Proof.
  unfold badger.Delete. induction store as [|x store IH]; [reflexivity|]. simpl.
  destruct (String.eqb (badger.Key x) key); [discriminate|]. simpl.
  intros Hnone. now rewrite IH.
Qed.

Lemma SetEntry_Forall (P : badger.Item -> Prop) (store : badger.DB) (e : badger.Item) :
  Forall P store -> P e -> Forall P (badger.SetEntry store e).
Proof.
  intros Hall He. induction Hall as [|x store Hx Hall IH]; simpl; [now constructor|].
  destruct (String.compare _ _); repeat constructor; auto.
Qed.

(** X1.  [Open] that succeeds was run on a closed client, leaves it open on
    the path given, and from then on every further [Open], for any path,
    fails with the already-open error and changes nothing.  [Open] that
    fails leaves the client as it was. *)
Theorem Open_once (c : db.DBClient) (p : string) :
  let c' := (db.Open c p).1 in
  ((db.Open c p).2 = None ->
     db.IsOpen c = false /\ db.IsOpen c' = true /\ db.GetPath c' = p /\
     forall p', db.Open c' p' = (c', Some ErrAlreadyOpen)) /\
  ((db.Open c p).2 <> None -> c' = c).
Proof.
  unfold db.Open, db.IsOpen, db.GetPath.
  destruct (db.db c) as [store|] eqn:Hdb; simpl.
  { split; [discriminate|reflexivity]. }
  destruct (badger.dir_exists p); simpl; [|split; [discriminate|reflexivity]].
  destruct (badger.Open p) as [store|cause]; simpl.
  - split; [|intros Hne; now contradiction Hne]. intros _. repeat split.
  - split; [discriminate|reflexivity].
Qed.

(** X2.  [Close] closes the client whether or not the store closes
    cleanly: the client is left closed with no path, and what [Close]
    returns is what closing the store returned, an error of Badger
    included.  A second [Close] returns no error and changes nothing; and
    on the closed client a query, a read, a write and a delete all fail
    with the not-open error and leave the client as it is. *)
Theorem Close_then_not_open `{RE : regexp.Lib} (c : db.DBClient)
    (opts : db.ListKeysOptions) (key : string) (value : list byte) (ttl : Z) :
  let c' := (db.Close c).1 in
  (forall store, db.db c = Some store ->
     (db.Close c).2 = ErrLibrary <$> badger.Close store) /\
  (db.db c = None -> db.Close c = (c, None)) /\
  db.IsOpen c' = false /\
  (db.IsOpen c = true -> db.GetPath c' = "") /\
  db.Close c' = (c', None) /\
  db.ListKeys opts c' = Err ErrNotOpen /\
  db.GetValue c' key = Err ErrNotOpen /\
  db.SetValue c' key value ttl = (c', Some ErrNotOpen) /\
  db.DeleteKey c' key = (c', Some ErrNotOpen).
Proof.
  unfold db.Close, db.IsOpen, db.GetPath, db.ListKeys, db.GetValue, db.SetValue,
    db.DeleteKey.
  destruct (db.db c) as [store|] eqn:Hdb; simpl; rewrite ?Hdb;
    (split; [intros store' [= <-] || intros ? [=]; reflexivity|]);
    (split; [try discriminate; reflexivity|]);
    repeat split.
  discriminate.
Qed.


(** X4.  A delete on an open store.  Under a key that the store accepts it
    succeeds: a read of that key then fails as not found, the read of
    every other key gives what it gave before, and when the key was not
    stored the store is left exactly as it was.  Under a key that the
    store refuses (the empty key, a key under the reserved prefix, a key of
    more than 65000 bytes) the delete fails with the error of the store
    and leaves the client as it was. *)
Theorem DeleteKey_then_GetValue (c : db.DBClient) (store : badger.DB) (key : string) :
  db.db c = Some store ->
  let c' := (db.DeleteKey c key).1 in
  (badger.modify_error key = None ->
   (db.DeleteKey c key).2 = None /\
   db.GetValue c' key = Err (ErrLibrary "Key not found") /\
   (forall key', key' <> key -> db.GetValue c' key' = db.GetValue c key') /\
   (badger.Get store key = None -> db.db c' = Some store)) /\
  (forall text, badger.modify_error key = Some text ->
   db.DeleteKey c key = (c, Some (ErrLibrary text))).
Proof.
  intros Hdb c'. subst c'. unfold db.DeleteKey, badger.Update_Delete.
  rewrite Hdb. simpl. split.
  - intros Hkey. rewrite Hkey. simpl. split; [reflexivity|]. split; [|split].
    + rewrite (GetValue_accepted {| db.path := db.path c;
                                    db.db := Some (badger.Delete store key) |}
                 (badger.Delete store key) key eq_refl Hkey).
      now rewrite Get_Delete.
    + intros key' Hne. unfold db.GetValue, badger.View_Get. rewrite Hdb. simpl.
      destruct (String.eqb key' ""); [reflexivity|].
      destruct (badger.reserved key' || badger.oversized key'); [reflexivity|].
      now rewrite Get_Delete_other.
    + intros Habsent. now rewrite Delete_absent.
  - intros text Hkey. now rewrite Hkey.
Qed.

(** X5.  Writes and deletes keep the invariant of the store: on a client
    whose store has ascending keys and readable values, the store after
    [SetValue] and after [DeleteKey] has them too, whether the call succeeds
    or fails. *)
Theorem writes_keep_store_ok (c : db.DBClient) (key : string)
    (value : list byte) (ttl : Z) :
  store_ok c ->
  store_ok (db.SetValue c key value ttl).1 /\ store_ok (db.DeleteKey c key).1.
Proof.
  unfold store_ok, db.SetValue, db.DeleteKey, badger.Update_SetEntry,
    badger.Update_Delete, readable.
  destruct (db.db c) as [store|] eqn:Hdb; simpl; [|now rewrite Hdb].
  intros [Hasc Hread]. split.
  - destruct (badger.modify_error key); simpl; [now rewrite Hdb|]. split.
    + now apply SetEntry_ascending.
    + apply SetEntry_Forall; [exact Hread|]. simpl. eauto.
  - destruct (badger.modify_error key); simpl; [now rewrite Hdb|]. split.
    + now apply Delete_ascending.
    + unfold badger.Delete. rewrite Forall_forall in *. intros e He.
      apply Hread. apply list_elem_of_In in He. apply list_elem_of_In.
      now apply filter_In in He as [? _].
Qed.

End ClientProperties.

(** ** Further properties of the query engine *)

Section FurtherScanFacts.
Context `{RE : regexp.Lib}.
Variable opts : db.ListKeysOptions.

(** A scan that ends with [hasMore] false has cut nothing off: its rows are
    all the rows that the entries ahead could give. *)
Lemma scan_all_when_no_more (re : option regexp.Regexp) (it : badger.Iterator)
    (count skipped : Z) (items : list db.KeyItem) :
  (db.scan opts re it count skipped items).2 = false ->
  (db.scan opts re it count skipped items).1 =
  items ++ rows_of opts
             (skip_offset opts (db.Offset opts - skipped)
                (List.filter (matches opts re) (visited opts re it))).
Proof.
  revert count skipped items.
  induction it as [|e it IH]; intros count skipped items; simpl.
  { intros _. unfold skip_offset, rows_of. destruct (String.eqb _ _); simpl;
      rewrite ?drop_nil; simpl; rewrite app_nil_r; reflexivity. }
  unfold visited, matches, goes_on in *. simpl.
  destruct (db.filterKey opts re (badger.Key e)) as [|[|]] eqn:Hf.
  - intros _. unfold skip_offset, rows_of. destruct (String.eqb _ _); simpl;
      rewrite ?drop_nil; simpl; rewrite app_nil_r; reflexivity.
  - simpl. rewrite (filterKey_Match _ _ _ _ Hf).
    assert (Hcollect :
      (match badger.ValueCopy e with
       | Ok valCopy =>
         if count + 1 >=? db.Limit opts
         then (items ++ [db.mkKeyItem opts e valCopy], badger.Valid it)
         else db.scan opts re it (count + 1) skipped
                (items ++ [db.mkKeyItem opts e valCopy])
       | Err _ => db.scan opts re it count skipped items
       end).2 = false ->
      (match badger.ValueCopy e with
       | Ok valCopy =>
         if count + 1 >=? db.Limit opts
         then (items ++ [db.mkKeyItem opts e valCopy], badger.Valid it)
         else db.scan opts re it (count + 1) skipped
                (items ++ [db.mkKeyItem opts e valCopy])
       | Err _ => db.scan opts re it count skipped items
       end).1 =
      items ++ rows_of opts
        (e :: skip_offset opts (db.Offset opts - skipped)
                (List.filter (fun e0 => matchKey opts re (badger.Key e0))
                   (takeWhile
                      (fun e0 =>
                         match db.filterKey opts re (badger.Key e0) with
                         | db.Return => false
                         | db.Match _ => true
                         end) it)))).
    { rewrite rows_of_cons. unfold badger.ValueCopy.
      destruct (badger.stored e) as [v|]; [|apply IH].
      destruct (count + 1 >=? db.Limit opts).
      - simpl. intros Hlast. destruct it; [|discriminate]. simpl.
        unfold skip_offset, rows_of. destruct (String.eqb _ _); simpl;
          rewrite ?drop_nil; reflexivity.
      - intros Hmore. rewrite IH by exact Hmore. now rewrite <- app_assoc. }
    unfold skip_offset in *.
    destruct (String.eqb (db.StartKey opts) "") eqn:Hsk; simpl; [|exact Hcollect].
    destruct (skipped <? db.Offset opts) eqn:Hlt.
    + apply Z.ltb_lt in Hlt. intros Hmore. rewrite IH by exact Hmore.
      replace (Z.to_nat (db.Offset opts - skipped))
        with (S (Z.to_nat (db.Offset opts - (skipped + 1)))) by lia.
      reflexivity.
    + apply Z.ltb_ge in Hlt.
      assert (Hz : Z.to_nat (db.Offset opts - skipped) = 0%nat) by lia.
      rewrite Hz in *. rewrite drop_0 in *. exact Hcollect.
  - simpl. rewrite (filterKey_Match _ _ _ _ Hf). apply IH.
Qed.

Lemma rows_of_drop (n : nat) (l : list badger.Item) :
  readable l -> rows_of opts (drop n l) = drop n (rows_of opts l).
Proof.
  unfold readable. intros Hall. revert n.
  induction Hall as [|e l [v He] Hall IH]; intros [|n]; try reflexivity.
  rewrite rows_of_cons, He. simpl. apply IH.
Qed.

Lemma rows_of_rev (l : list badger.Item) :
  rows_of opts (rev l) = rev (rows_of opts l).
Proof.
  induction l as [|e l IH]; [reflexivity|]. simpl.
  unfold rows_of in *. rewrite omap_app, IH. simpl.
  destruct (badger.stored e); simpl; [reflexivity|now rewrite app_nil_r].
Qed.

Lemma rows_of_length (l : list badger.Item) :
  (length (rows_of opts l) <= length l)%nat.
Proof.
  induction l as [|e l IH]; [reflexivity|]. rewrite rows_of_cons.
  destruct (badger.stored e); simpl; lia.
Qed.

Lemma dropWhile_none {A} (p : A -> bool) (l : list A) :
  (forall x, In x l -> p x = false) -> dropWhile p l = l.
Proof.
  destruct l as [|x l]; [reflexivity|]. intros Hall. simpl.
  now rewrite (Hall x (or_introl eq_refl)).
Qed.

(** before the seek position of an ascending scan without a start key
    nothing matches *)
Lemma matched_from_start (store : badger.DB) :
  db.SortDesc opts = false -> db.StartKey opts = "" ->
  List.filter (matches opts (compiled opts)) (cursor opts store) =
  List.filter (matches opts (compiled opts)) store.
Proof.
  intros Hdir Hsk. unfold cursor, badger.Seek, db.startKey. rewrite Hdir, Hsk. simpl.
  apply filter_dropWhile. intros x Hx. unfold matches, matchKey.
  destruct (String.eqb (db.Mode opts) "prefix"); simpl in Hx.
  - destruct (strings.HasPrefix _ _) eqn:Hp; [|reflexivity].
    apply HasPrefix_not_below in Hp. congruence.
  - now rewrite ltb_empty_r in Hx.
Qed.

End FurtherScanFacts.

Section SortedFacts.

Lemma StronglySorted_sublist {A} (R : relation A) (l1 l2 : list A) :
  l1 `sublist_of` l2 -> StronglySorted R l2 -> StronglySorted R l1.
Proof.
  induction 1 as [|x l1 l2 Hsub IH|x l1 l2 Hsub IH]; intros Hsorted.
  - constructor.
  - apply StronglySorted_inv in Hsorted as [Hs Hx]. constructor; [auto|].
    rewrite Forall_forall in *. intros y Hy. apply Hx.
    now apply (sublist_subseteq _ _ Hsub).
  - apply StronglySorted_inv in Hsorted as [Hs _]. auto.
Qed.

Lemma filter_sublist {A} (f : A -> bool) (l : list A) :
  List.filter f l `sublist_of` l.
Proof.
  induction l as [|x l IH]; simpl; [constructor|].
  destruct (f x); now constructor.
Qed.

Lemma StronglySorted_omap {A B} (R : relation A) (R' : relation B)
    (f : A -> option B) (l : list A) :
  (forall x y x' y', R x y -> f x = Some x' -> f y = Some y' -> R' x' y') ->
  StronglySorted R l -> StronglySorted R' (omap f l).
Proof.
  intros Hf. induction 1 as [|x l Hs IH Hx]; simpl; [constructor|].
  destruct (f x) as [x'|] eqn:Hfx; [|exact IH]. constructor; [exact IH|].
  apply Forall_forall. intros y' Hy'.
  apply list_elem_of_omap in Hy' as (y & Hy & Hfy).
  exact (Hf x y x' y' (proj1 (Forall_forall _ _) Hx y Hy) Hfx Hfy).
Qed.

Lemma StronglySorted_NoDup {A} (R : relation A) (l : list A) :
  (forall x, ~ R x x) -> StronglySorted R l -> NoDup l.
Proof.
  intros Hirr. induction 1 as [|x l Hs IH Hx]; constructor; [|exact IH].
  intros Hin. rewrite Forall_forall in Hx. exact (Hirr x (Hx x Hin)).
Qed.

End SortedFacts.

Section FurtherQueryProperties.
Context `{RE : regexp.Lib}.

Lemma readable_matched (opts : db.ListKeysOptions) (store : badger.DB) :
  readable store ->
  readable (List.filter (matches opts (compiled opts)) (cursor opts store)).
Proof.
  unfold readable. rewrite !Forall_forall. intros Hall e He.
  apply list_elem_of_In, filter_In in He as [He _].
  apply Hall, (cursor_elem opts), list_elem_of_In, He.
Qed.

(** X6.  When a query on an open store reports [hasMore] false, its page has
    cut nothing off: the rows are all the readable entries that match from
    the seek position on, less the skipped ones. *)
Theorem ListKeys_no_more_means_all (opts : db.ListKeysOptions) (c : db.DBClient)
    (store : badger.DB) (rows : list db.KeyItem) :
  db.db c = Some store -> badger.ascending store ->
  db.ListKeys opts c = Ok (rows, false) ->
  rows = rows_of opts
           (skip_offset opts (db.Offset opts)
              (List.filter (matches opts (compiled opts)) (cursor opts store))).
Proof.
  intros Hdb Hasc Hlist.
  pose proof (ListKeys_scan opts _ _ _ _ Hdb Hlist) as Hscan.
  pose proof (scan_all_when_no_more opts (compiled opts) (cursor opts store) 0 0 [])
    as Hall.
  rewrite Hscan in Hall. simpl in Hall. specialize (Hall eq_refl).
  rewrite matched_visited in Hall by (now apply cursor_ascending).
  now rewrite Z.sub_0_r in Hall.
Qed.

(** X7.  Pages join up.  Over an open store whose values can all be read,
    for a query without a start key, a page of [limit] rows at [offset]
    followed by the page of [limit] rows at [offset + limit] is the page of
    [2 * limit] rows at [offset]: no row is lost or repeated between two
    successive pages. *)
Theorem pages_concatenate (opts : db.ListKeysOptions) (c : db.DBClient)
    (store : badger.DB) (offset limit : Z)
    (rows1 rows2 rows12 : list db.KeyItem) (more1 more2 more12 : bool) :
  db.db c = Some store -> badger.ascending store -> readable store ->
  db.StartKey opts = "" -> 0 <= offset -> 0 < limit ->
  db.ListKeys (page opts offset limit) c = Ok (rows1, more1) ->
  db.ListKeys (page opts (offset + limit) limit) c = Ok (rows2, more2) ->
  db.ListKeys (page opts offset (2 * limit)) c = Ok (rows12, more12) ->
  rows12 = rows1 ++ rows2.
Proof.
  intros Hdb Hasc Hread Hsk Hoff Hlim H1 H2 H12.
  apply (ListKeys_rows _ _ _ _ _ Hdb Hasc) in H1, H2, H12.
  unfold skip_offset in H1, H2, H12. simpl in H1, H2, H12.
  rewrite Hsk in H1, H2, H12. simpl in H1, H2, H12.
  set (matched := List.filter (matches opts (compiled opts)) (cursor opts store)).
  change (List.filter (matches (page opts offset limit)
                         (compiled (page opts offset limit)))
            (cursor (page opts offset limit) store)) with matched in H1.
  change (List.filter (matches (page opts (offset + limit) limit)
                         (compiled (page opts (offset + limit) limit)))
            (cursor (page opts (offset + limit) limit) store)) with matched in H2.
  change (List.filter (matches (page opts offset (2 * limit))
                         (compiled (page opts offset (2 * limit))))
            (cursor (page opts offset (2 * limit)) store)) with matched in H12.
  change (rows_of (page opts offset limit)) with (rows_of opts) in H1.
  change (rows_of (page opts (offset + limit) limit)) with (rows_of opts) in H2.
  change (rows_of (page opts offset (2 * limit))) with (rows_of opts) in H12.
  pose proof (readable_matched opts store Hread) as Hm. fold matched in Hm.
  rewrite rows_of_drop in H1, H2, H12 by exact Hm.
  rewrite H1, H2, H12.
  replace (Z.to_nat (Z.max 1 (2 * limit)))
    with (Z.to_nat (Z.max 1 limit) + Z.to_nat (Z.max 1 limit))%nat by lia.
  replace (Z.to_nat (offset + limit))
    with (Z.to_nat offset + Z.to_nat (Z.max 1 limit))%nat by lia.
  rewrite <- drop_drop. symmetry. apply take_take_drop.
Qed.

(** X8.  The rows of a query come in the order of the keys, strictly
    ascending or, for a descending query, strictly descending; so no key is
    returned twice. *)
Theorem ListKeys_rows_in_key_order (opts : db.ListKeysOptions) (c : db.DBClient)
    (store : badger.DB) (rows : list db.KeyItem) (hasMore : bool) :
  db.db c = Some store -> badger.ascending store ->
  db.ListKeys opts c = Ok (rows, hasMore) ->
  StronglySorted (row_ahead opts) rows /\ NoDup (db.Key <$> rows).
Proof.
  intros Hdb Hasc Hlist.
  assert (Hsorted : StronglySorted (row_ahead opts) rows).
  { rewrite (ListKeys_rows _ _ _ _ _ Hdb Hasc Hlist).
    eapply StronglySorted_sublist; [apply sublist_take|].
    apply (StronglySorted_omap (ahead opts)).
    { intros x y x' y' Hxy Hx Hy.
      destruct (badger.stored x); [|discriminate].
      destruct (badger.stored y); [|discriminate].
      injection Hx as <-. injection Hy as <-.
      unfold ahead, beyond in Hxy. unfold row_ahead. simpl.
      now destruct (db.SortDesc opts). }
    eapply StronglySorted_sublist.
    { unfold skip_offset. destruct (String.eqb _ _); [apply sublist_drop|reflexivity]. }
    eapply StronglySorted_sublist; [apply filter_sublist|].
    destruct (cursor_suffix opts store) as [front Hfront].
    pose proof (directed_sorted opts store Hasc) as Hdir.
    rewrite Hfront in Hdir. now apply StronglySorted_app_1_r in Hdir. }
  split; [exact Hsorted|].
  apply (StronglySorted_NoDup
           (fun a b => if db.SortDesc opts then String.ltb b a = true
                       else String.ltb a b = true)).
  - intros k. destruct (db.SortDesc opts); now rewrite ltb_irrefl.
  - apply (StronglySorted_fmap db.Key (row_ahead opts)); [|exact Hsorted].
    intros r1 r2 Hr. exact Hr.
Qed.

(** X9.  Every row of a query, in any mode, is the row of a stored entry
    whose key matches the active predicate and whose value could be read:
    its key, size and expiry are those of the entry and its preview is the
    preview of the value. *)
Theorem ListKeys_rows_are_stored_matches (opts : db.ListKeysOptions)
    (c : db.DBClient) (store : badger.DB) (rows : list db.KeyItem)
    (hasMore : bool) (r : db.KeyItem) :
  db.db c = Some store -> badger.ascending store ->
  db.ListKeys opts c = Ok (rows, hasMore) ->
  r ∈ rows ->
  matchKey opts (compiled opts) (db.Key r) = true /\
  exists e v, e ∈ store /\ badger.stored e = Some v /\
    db.Key r = badger.Key e /\
    db.Size r = badger.ValueSize e /\
    db.ExpiresAt r = badger.ExpiresAt e /\
    db.ValuePreview r = db.preview (db.PreviewChars opts) v.
Proof.
  intros Hdb Hasc Hlist Hr.
  destruct (rows_from_cursor _ _ _ _ _ _ Hdb Hasc Hlist Hr)
    as (e & v & He & Hm & Hv & ->).
  split; [exact Hm|]. exists e, v. repeat split; auto.
  now apply (cursor_elem opts).
Qed.

(** X10.  An ascending query without a start key, in any mode, omits no
    stored entry that matches: its rows are the readable entries of the
    store that match, in key order, less the first [Offset], up to the page
    size. *)
Theorem ascending_query_complete (opts : db.ListKeysOptions) (c : db.DBClient)
    (store : badger.DB) (rows : list db.KeyItem) (hasMore : bool) :
  db.SortDesc opts = false -> db.StartKey opts = "" ->
  db.db c = Some store -> badger.ascending store ->
  db.ListKeys opts c = Ok (rows, hasMore) ->
  rows = take (Z.to_nat (Z.max 1 (db.Limit opts)))
           (rows_of opts
              (drop (Z.to_nat (db.Offset opts))
                 (List.filter (matches opts (compiled opts)) store))).
Proof.
  intros Hdir Hsk Hdb Hasc Hlist.
  rewrite (ListKeys_rows _ _ _ _ _ Hdb Hasc Hlist).
  rewrite matched_from_start by assumption.
  unfold skip_offset. now rewrite Hsk.
Qed.

(** X11.  When the descending scan starts at the last key, it returns the
    reverse of the ascending result.  That is the case for a prefix query
    with the empty pattern, and for a substring or regex query over a store
    with no key above the single byte 0xFF; it is stated for no start key, no
    offset and a limit that covers the store. *)
Theorem descending_reverses_ascending (opts : db.ListKeysOptions) (c : db.DBClient)
    (store : badger.DB) (asc desc : list db.KeyItem) (moreA moreD : bool) :
  db.db c = Some store -> badger.ascending store ->
  db.StartKey opts = "" -> db.Offset opts <= 0 ->
  Z.of_nat (length store) <= db.Limit opts ->
  (db.Mode opts = "prefix" /\ db.Prefix opts = "" \/
   db.Mode opts <> "prefix" /\
   forall e, e ∈ store -> String.ltb top_key (badger.Key e) = false) ->
  db.ListKeys (sorted_by opts false) c = Ok (asc, moreA) ->
  db.ListKeys (sorted_by opts true) c = Ok (desc, moreD) ->
  desc = rev asc.
Proof.
  intros Hdb Hasc Hsk Hoff Hlim Hstart HA HD.
  apply (ListKeys_rows _ _ _ _ _ Hdb Hasc) in HA, HD.
  unfold skip_offset in HA, HD. simpl in HA, HD. rewrite Hsk in HA, HD.
  simpl in HA, HD.
  replace (Z.to_nat (db.Offset opts)) with 0%nat in HA, HD by lia.
  rewrite drop_0 in HA, HD.
  set (m := matches opts (compiled opts)).
  change (matches (sorted_by opts false) (compiled (sorted_by opts false)))
    with m in HA.
  change (matches (sorted_by opts true) (compiled (sorted_by opts true)))
    with m in HD.
  change (rows_of (sorted_by opts false)) with (rows_of opts) in HA.
  change (rows_of (sorted_by opts true)) with (rows_of opts) in HD.
  assert (HcA : cursor (sorted_by opts false) store = store).
  { unfold cursor, badger.Seek, db.startKey. simpl. rewrite Hsk. simpl.
    apply dropWhile_none. intros x _.
    destruct Hstart as [[-> ->]|[Hmode _]]; simpl; [apply ltb_empty_r|].
    apply String.eqb_neq in Hmode. rewrite Hmode. simpl. apply ltb_empty_r. }
  assert (HcD : cursor (sorted_by opts true) store = rev store).
  { unfold cursor, badger.Seek, db.startKey. simpl. rewrite Hsk. simpl.
    destruct Hstart as [[-> ->]|[Hmode Htop]]; simpl; [reflexivity|].
    apply String.eqb_neq in Hmode. rewrite Hmode. simpl.
    apply dropWhile_none. intros x Hx. apply Htop.
    apply list_elem_of_In, in_rev. exact Hx. }
  rewrite HcA in HA. rewrite HcD in HD.
  rewrite List.filter_rev, rows_of_rev in HD.
  assert (Hlen : (length (rows_of opts (List.filter m store))
                  <= Z.to_nat (Z.max 1 (db.Limit opts)))%nat).
  { pose proof (rows_of_length opts (List.filter m store)).
    pose proof (List.filter_length_le m store). lia. }
  rewrite take_ge in HA by exact Hlen.
  rewrite take_ge in HD by (now rewrite length_rev).
  now rewrite HA, HD.
Qed.

(** X13.  A text preview is short and true to the value: for a value that is
    not classified as binary, the preview is at most three bytes longer than
    the effective preview length, and it starts with the bytes of the value
    up to that length. *)
Theorem preview_text_bounded (p : Z) (v : list byte) :
  db.isBinary v = false ->
  let effective := if p <=? 0 then 100 else p in
  (String.length (db.preview p v) <= Z.to_nat effective + 3)%nat /\
  String.prefix (string_of_list_byte (take (Z.to_nat effective) v))
                (db.preview p v) = true.
Proof.
  intros Htext effective.
  assert (Hlen : forall l : list byte, String.length (string_of_list_byte l) = length l).
  { induction l as [|b l IH]; [reflexivity|]. simpl. now rewrite <- IH. }
  assert (Happ : forall s t : string,
            String.length (s +:+ t) = (String.length s + String.length t)%nat).
  { induction s as [|a s IH]; intros t; [reflexivity|]. simpl. now rewrite IH. }
  assert (Hpre : forall s t : string, String.prefix s (s +:+ t) = true).
  { induction s as [|a s IH]; intros t; [now destruct t|]. simpl.
    destruct (ascii_dec a a); [apply IH|contradiction]. }
  unfold db.preview. rewrite Htext. fold effective.
  destruct (Z.of_nat (length v) >? effective) eqn:Hgt.
  - rewrite Z.gtb_ltb in Hgt. apply Z.ltb_lt in Hgt. split; [|apply Hpre].
    rewrite Happ, Hlen, length_take. simpl. lia.
  - rewrite Z.gtb_ltb in Hgt. apply Z.ltb_ge in Hgt.
    rewrite take_ge by lia. split.
    + rewrite Hlen. lia.
    + generalize (string_of_list_byte v).
      induction s as [|a s IH]; [reflexivity|]. simpl.
      destruct (ascii_dec a a); [exact IH|contradiction].
Qed.

(** X14.  Only the first 512 bytes of a value count for its classification:
    two values that agree on them are classified alike, whatever follows. *)
Theorem isBinary_first_512_only (a b : list byte) :
  take 512 a = take 512 b -> db.isBinary a = db.isBinary b.
Proof.
  intros Hsame.
  destruct (db.isBinary a) eqn:Ha, (db.isBinary b) eqn:Hb; try reflexivity.
  - apply isBinary_spec in Ha. rewrite Hsame in Ha.
    apply isBinary_spec in Ha. congruence.
  - apply isBinary_spec in Hb. rewrite <- Hsame in Hb.
    apply isBinary_spec in Hb. congruence.
Qed.

End FurtherQueryProperties.

(** ** Further properties of the dispatcher and of the sessions *)

Section FurtherSessionProperties.
Context `{RE : regexp.Lib} `{HO : badger.Host} `{B64 : base64.StdEncoding}
        `{JS : api.Json} `{RT : runtime.Memory}.

Ltac open_handler :=
  unfold api.handleOpenDB, api.handleListKeys, api.handleGetValue,
    api.handlePutValue, api.handlePutChunk, api.handlePutCommit,
    api.handleDeleteKey, api.handleCloseDB, api.nil_or;
  repeat match goal with
         | |- context [match ?x with _ => _ end] => destruct x eqn:?
         | |- context [let '(_, _) := ?x in _] => destruct x eqn:?
         end;
  simpl; try reflexivity.

(** [put_value] touches the session table only *)
Lemma handlePutValue_frame (h h' : api.Handler) (reqID : string)
    (params : api.RawMessage) (r : result error api.interface) :
  api.handlePutValue h reqID params = Done (h', r) ->
  api.out h' = api.out h /\ api.dbClient h' = api.dbClient h.
Proof.
  unfold api.handlePutValue.
  destruct (api.Unmarshal_PutValueParams params) as [p|text].
  - destruct (runtime.allocatable (api.ValueLength p)); [|discriminate].
    intros [= <- _]. split; reflexivity.
  - intros [= <- _]. split; reflexivity.
Qed.

(** what a request may touch, by its kind *)
Lemma dispatch_frame (h h' : api.Handler) (req : api.Request api.RawMessage)
    (r : result error api.interface) :
  api.dispatch h req = Some (Done (h', r)) ->
  api.out h' = api.out h /\
  (~ In (api.Type_ req)
        [api.TypeOpenDB; api.TypePutCommit; api.TypeDeleteKey; api.TypeCloseDB] ->
   api.dbClient h' = api.dbClient h) /\
  (~ In (api.Type_ req) [api.TypePutValue; api.TypePutChunk; api.TypePutCommit] ->
   api.chunkBuffer h' = api.chunkBuffer h).
Proof.
  unfold api.dispatch.
  repeat match goal with
         | |- context [String.eqb ?a ?b] => destruct (String.eqb_spec a b) as [Heq|?]
         end;
    try discriminate; intros Hd; injection Hd as Hd.
  4: { apply handlePutValue_frame in Hd as [Ho Hc].
       split; [exact Ho|]. split; [intros _; exact Hc|].
       intros Hnot. exfalso. apply Hnot. rewrite Heq. simpl. tauto. }
  all: apply (f_equal fst) in Hd; simpl in Hd; subst h';
    (split; [open_handler|split; intros Hnot]);
    try (exfalso; apply Hnot; rewrite Heq; simpl; tauto);
    open_handler.
Qed.

(** the one request that panics *)
Lemma dispatch_Panic (h : api.Handler) (req : api.Request api.RawMessage) :
  api.dispatch h req = Some Panic <->
  api.Type_ req = api.TypePutValue /\
  exists p, api.Unmarshal_PutValueParams (api.Params req) = Ok p /\
            runtime.allocatable (api.ValueLength p) = false.
Proof.
  split.
  - unfold api.dispatch.
    repeat match goal with
           | |- context [String.eqb ?a ?b] => destruct (String.eqb_spec a b) as [Heq|?]
           end;
      try discriminate.
    unfold api.handlePutValue.
    destruct (api.Unmarshal_PutValueParams (api.Params req)) as [p|text];
      [|discriminate].
    destruct (runtime.allocatable (api.ValueLength p)) eqn:Hcap; [discriminate|].
    intros _. split; [exact Heq|]. now exists p.
  - intros (Hty & p & Hp & Hcap). unfold api.dispatch, api.handlePutValue.
    rewrite Hty, Hp, Hcap. reflexivity.
Qed.

(** a line is left without an answer by that request only *)
Lemma handleLine_Panic (h : api.Handler) (line : list byte) :
  api.handleLine h line = Panic <-> unallocatable_upload line.
Proof.
  unfold unallocatable_upload, api.handleLine.
  destruct (api.Unmarshal_Request line) as [req [text|]]; simpl.
  { split; [discriminate|]. intros [Hbad _]. discriminate. }
  rewrite <- (dispatch_Panic h).
  destruct (api.dispatch h req) as [[[h' [result|err]]|]|]; split;
    try discriminate; try reflexivity; try tauto;
    intros [_ Hd]; discriminate.
Qed.

(** X15.  Every line that [handleLine] takes is answered by exactly one
    response, written after those already written and carrying the id of
    the request as decoded, with one exception: a line that decodes to a
    [put_value] request whose value length the machine cannot allocate (a
    negative length is one) makes [handleLine] panic, and nothing is
    written for it.  A response that is not an error has the type of the
    request followed by ["_resp"]. *)
Theorem handleLine_one_response (h : api.Handler) (line : list byte) :
  let req := (api.Unmarshal_Request line).1 in
  (api.handleLine h line = Panic <-> unallocatable_upload line) /\
  (~ unallocatable_upload line ->
   exists h' resp,
     api.handleLine h line = Done h' /\
     api.out h' = api.out h ++ [resp] /\
     api.rs_ID resp = api.ID req /\
     (api.rs_Error resp = None -> api.rs_Type resp = api.Type_ req +:+ "_resp")) /\
  (forall p, (api.Unmarshal_Request line).2 = None ->
     api.Type_ req = api.TypePutValue ->
     api.Unmarshal_PutValueParams (api.Params req) = Ok p ->
     api.ValueLength p < 0 ->
     api.handleLine h line = Panic).
Proof.
  intros req. split; [apply handleLine_Panic|]. split.
  - intros Hnot. rewrite <- (handleLine_Panic h) in Hnot. subst req.
    unfold api.handleLine in *.
    destruct (api.Unmarshal_Request line) as [req [text|]]; simpl.
    { do 2 eexists. split; [reflexivity|]. repeat split. discriminate. }
    destruct (api.dispatch h req) as [[[h' [result|err]]|]|] eqn:Hd; simpl.
    + apply dispatch_frame in Hd as [<- _]. do 2 eexists.
      split; [reflexivity|]. repeat split.
    + apply dispatch_frame in Hd as [<- _]. do 2 eexists.
      split; [reflexivity|]. repeat split. discriminate.
    + now contradiction Hnot.
    + do 2 eexists. split; [reflexivity|]. repeat split. discriminate.
  - intros p Hline Hty Hp Hneg. apply handleLine_Panic.
    split; [exact Hline|]. split; [exact Hty|]. exists p. split; [exact Hp|].
    destruct (runtime.allocatable (api.ValueLength p)) eqn:Hcap; [|reflexivity].
    apply runtime.allocatable_nonneg in Hcap. lia.
Qed.

(** X16.  What a request may change.  A line that is answered leaves the
    client of the store as it was unless it decodes to an [open_db],
    [put_commit], [delete_key] or [close_db] request, and leaves the session
    table as it was unless it decodes to a [put_value], [put_chunk] or
    [put_commit] request.  So a malformed line, an unknown kind, [list_keys]
    and [get_value] change neither, and they are always answered. *)
Theorem handleLine_frame (h : api.Handler) (line : list byte) :
  let req := (api.Unmarshal_Request line).1 in
  (forall h', api.handleLine h line = Done h' ->
     ((api.Unmarshal_Request line).2 <> None \/
      ~ In (api.Type_ req)
           [api.TypeOpenDB; api.TypePutCommit; api.TypeDeleteKey; api.TypeCloseDB] ->
      api.dbClient h' = api.dbClient h) /\
     ((api.Unmarshal_Request line).2 <> None \/
      ~ In (api.Type_ req) [api.TypePutValue; api.TypePutChunk; api.TypePutCommit] ->
      api.chunkBuffer h' = api.chunkBuffer h)) /\
  ((api.Unmarshal_Request line).2 <> None \/
   ~ In (api.Type_ req) [api.TypePutValue; api.TypePutChunk; api.TypePutCommit] ->
   exists h', api.handleLine h line = Done h').
Proof.
  intros req. split.
  - subst req. unfold api.handleLine.
    destruct (api.Unmarshal_Request line) as [req [text|]]; simpl.
    { intros h' [= <-]. split; reflexivity. }
    destruct (api.dispatch h req) as [[[h1 [result|err]]|]|] eqn:Hd; simpl;
      intros h' [= <-].
    + apply dispatch_frame in Hd as (_ & Hc & Hs).
      split; intros [Hbad|Hkind]; solve [now contradiction Hbad|auto].
    + apply dispatch_frame in Hd as (_ & Hc & Hs).
      split; intros [Hbad|Hkind]; solve [now contradiction Hbad|auto].
    + split; reflexivity.
  - intros Hkeeps.
    destruct (api.handleLine h line) as [h'|] eqn:Hline; [now exists h'|].
    apply handleLine_Panic in Hline as (Hdec & Hty & _). exfalso.
    destruct Hkeeps as [Hbad|Hkind]; [now contradiction Hbad|].
    apply Hkind. fold req in Hty. rewrite Hty. simpl. tauto.
Qed.

(** X18.  Sessions do not mix.  After any run of [put_chunk] requests, for
    any ids and in any order, some of them failing, the buffer of a live
    session is what it was followed by the decoded payloads of the requests
    that named it, in the order of their arrival; a session that was not
    live is still not live; the store and the output are untouched. *)
Theorem put_chunks_per_session (chunks : list api.RawMessage) (h : api.Handler)
    (id : string) :
  let h' := (put_chunks h chunks).1 in
  (forall buf, api.chunkBuffer h !! id = Some buf ->
     api.chunkBuffer h' !! id = Some (buf ++ List.concat (payload_for id <$> chunks))) /\
  (api.chunkBuffer h !! id = None -> api.chunkBuffer h' !! id = None) /\
  api.dbClient h' = api.dbClient h /\
  api.out h' = api.out h.
Proof.
  revert h. induction chunks as [|params chunks IH]; intros h; simpl.
  { repeat split; auto. intros buf Hbuf. now rewrite app_nil_r. }
  destruct (api.handlePutChunk h params) as [h1 r] eqn:Hstep.
  specialize (IH h1). destruct (put_chunks h1 chunks) as [h2 rs]. simpl in *.
  destruct IH as (IHsome & IHnone & IHc & IHo).
  assert (Hh1 :
    (forall buf, api.chunkBuffer h !! id = Some buf ->
       api.chunkBuffer h1 !! id = Some (buf ++ payload_for id params)) /\
    (api.chunkBuffer h !! id = None -> api.chunkBuffer h1 !! id = None) /\
    api.dbClient h1 = api.dbClient h /\ api.out h1 = api.out h).
  { unfold api.handlePutChunk, payload_for in *.
    destruct (api.Unmarshal_PutChunkParams params) as [p|];
      [|injection Hstep as <- _; repeat split; auto; intros; now rewrite app_nil_r].
    destruct (base64.DecodeString (api.Data p)) as [data|];
      [|injection Hstep as <- _; repeat split; auto; intros; now rewrite app_nil_r].
    destruct (api.chunkBuffer h !! api.pc_ID p) as [own|] eqn:Hown;
      injection Hstep as <- _; simpl.
    - destruct (String.eqb_spec (api.pc_ID p) id) as [<-|Hne]; repeat split; auto.
      + intros buf Hbuf. rewrite lookup_insert_eq. congruence.
      + congruence.
      + intros buf Hbuf. now rewrite lookup_insert_ne, app_nil_r.
      + intros Hnone. now rewrite lookup_insert_ne.
    - repeat split; auto. intros buf Hbuf.
      destruct (String.eqb_spec (api.pc_ID p) id) as [<-|Hne]; [congruence|].
      now rewrite app_nil_r. }
  destruct Hh1 as (Hsome & Hnone & Hc & Ho). repeat split.
  - intros buf Hbuf. rewrite (IHsome _ (Hsome _ Hbuf)), <- app_assoc. reflexivity.
  - auto.
  - congruence.
  - congruence.
Qed.

(** X19.  [put_commit] consumes its session whether or not the write
    succeeds: after it the session is gone and every other session is as it
    was.  In particular a commit on a closed store fails with the not-open
    error, and the same commit tried again fails with the unknown-session
    error: the buffered bytes are lost. *)
Theorem put_commit_consumes_session (h : api.Handler) (params : api.RawMessage)
    (pc : api.PutCommitParams) :
  api.Unmarshal_PutCommitParams params = Ok pc ->
  let h' := (api.handlePutCommit h params).1 in
  api.chunkBuffer h' !! api.cm_ID pc = None /\
  (forall id, id <> api.cm_ID pc -> api.chunkBuffer h' !! id = api.chunkBuffer h !! id) /\
  (db.db (api.dbClient h) = None -> is_Some (api.chunkBuffer h !! api.cm_ID pc) ->
   (api.handlePutCommit h params).2 = Err ErrNotOpen /\
   (api.handlePutCommit h' params).2 = Err (ErrUnknownSession (api.cm_ID pc))).
Proof.
  intros Hpc. unfold api.handlePutCommit. rewrite Hpc. simpl.
  assert (Hother : forall id, id <> api.cm_ID pc ->
            delete (api.cm_ID pc) (api.chunkBuffer h) !! id = api.chunkBuffer h !! id).
  { intros id Hid. now apply lookup_delete_ne. }
  destruct (api.chunkBuffer h !! api.cm_ID pc) as [buf|] eqn:Hbuf; simpl.
  - unfold db.SetValue.
    destruct (db.db (api.dbClient h)) as [store|] eqn:Hdb; simpl.
    + destruct (badger.Update_SetEntry _ _); simpl;
        (split; [apply lookup_delete_eq|split; [exact Hother|discriminate]]).
    + split; [apply lookup_delete_eq|split; [exact Hother|]].
      intros _ _. rewrite lookup_delete_eq. split; reflexivity.
  - split; [apply lookup_delete_eq|split; [exact Hother|]].
    intros _ [? ?]. discriminate.
Qed.

End FurtherSessionProperties.

(** ** Backups *)

Section SanitizeFacts.

Lemma prefix_empty (s : string) : String.prefix "" s = true.
Proof. destruct s; reflexivity. Qed.

(** replacing one byte by ["_"], as a map over the bytes *)
Lemma ReplaceAll_single (a : ascii) (s : string) :
  strings.ReplaceAll s (String a "") "_" =
  map_bytes (fun c => if Ascii.eqb c a then "_"%char else c) s.
Proof.
  unfold strings.ReplaceAll. induction s as [|c s IH]; [reflexivity|].
  cbn [strings.replace_from String.prefix String.length Nat.sub map_bytes].
  rewrite prefix_empty.
  destruct (ascii_dec a c) as [->|Hne].
  - rewrite Ascii.eqb_refl. simpl. now rewrite IH.
  - destruct (Ascii.eqb_spec c a); [congruence|]. now rewrite IH.
Qed.

Lemma map_bytes_compose (f g : ascii -> ascii) (s : string) :
  map_bytes f (map_bytes g s) = map_bytes (fun c => f (g c)) s.
Proof. induction s as [|c s IH]; [reflexivity|]. simpl. now rewrite IH. Qed.

Lemma map_bytes_ext (f g : ascii -> ascii) (s : string) :
  (forall c, f c = g c) -> map_bytes f s = map_bytes g s.
Proof. intros Hfg. induction s as [|c s IH]; [reflexivity|]. simpl. now rewrite Hfg, IH. Qed.

(** the nine replacements of [sanitizeFilename], as one map over the bytes *)
Lemma sanitizeFilename_map (s : string) :
  db.sanitizeFilename s = map_bytes sanitize_byte s.
Proof.
  unfold db.sanitizeFilename, db.invalid. simpl.
  rewrite !ReplaceAll_single, !map_bytes_compose.
  apply map_bytes_ext.
  intros [[] [] [] [] [] [] [] []]; reflexivity.
Qed.

Lemma Contains_single (a : ascii) (s : string) :
  strings.Contains s (String a "") =
  existsb (Ascii.eqb a) (list_ascii_of_string s).
Proof.
  induction s as [|c s IH]; [reflexivity|].
  cbn [strings.Contains String.prefix list_ascii_of_string existsb].
  rewrite prefix_empty, IH.
  destruct (ascii_dec a c) as [->|Hne]; [now rewrite Ascii.eqb_refl|].
  now destruct (Ascii.eqb_spec a c).
Qed.

Lemma Contains_single_app (a : ascii) (s t : string) :
  strings.Contains (s +:+ t) (String a "") =
  strings.Contains s (String a "") || strings.Contains t (String a "").
Proof.
  rewrite !Contains_single. induction s as [|c s IH]; [reflexivity|]. simpl.
  now rewrite IH, orb_assoc.
Qed.

Lemma invalid_single (bad : string) :
  In bad db.invalid -> exists a, bad = String a "" /\ sanitize_byte a <> a.
Proof.
  unfold db.invalid. simpl.
  intros [<-|[<-|[<-|[<-|[<-|[<-|[<-|[<-|[<-|[]]]]]]]]]]; eexists;
    (split; [reflexivity|vm_compute; discriminate]).
Qed.

Lemma sanitize_byte_idem (c : ascii) : sanitize_byte (sanitize_byte c) = sanitize_byte c.
Proof. destruct c as [[] [] [] [] [] [] [] []]; reflexivity. Qed.

Lemma sanitize_byte_clean (a c : ascii) :
  sanitize_byte a <> a -> Ascii.eqb a (sanitize_byte c) = false.
Proof.
  intros Ha. destruct (Ascii.eqb_spec a (sanitize_byte c)) as [->|]; [|reflexivity].
  contradiction Ha. apply sanitize_byte_idem.
Qed.

Lemma sanitize_byte_keeps (c : ascii) :
  (forall bad, In bad db.invalid -> String.eqb bad (String c "") = false) ->
  sanitize_byte c = c.
Proof.
  intros Hclean. unfold sanitize_byte.
  destruct (existsb _ _) eqn:Hex; [|reflexivity].
  apply existsb_exists in Hex as (bad & Hin & Heq).
  now rewrite (Hclean bad Hin) in Heq.
Qed.

End SanitizeFacts.

Section BackupProperties.
Context `{HO : badger.Host} `{OS : os.Host} `{LO : locale.Localizer}.

Lemma map_bytes_length (f : ascii -> ascii) (s : string) :
  String.length (map_bytes f s) = String.length s.
Proof. induction s as [|c s IH]; [reflexivity|]. simpl. now rewrite IH. Qed.

(** a sanitized name holds none of the invalid characters *)
Lemma sanitizeFilename_clean (s bad : string) :
  In bad db.invalid -> strings.Contains (db.sanitizeFilename s) bad = false.
Proof.
  rewrite sanitizeFilename_map. intros Hbad.
  apply invalid_single in Hbad as (a & -> & Ha).
  rewrite Contains_single. induction s as [|c s IH]; [reflexivity|]. simpl.
  now rewrite (sanitize_byte_clean a c Ha), IH.
Qed.

(** X20.  [sanitizeFilename] gives a name of the same length that holds none
    of the nine invalid characters; a name that holds none of them is left
    as it is, and so sanitizing twice is sanitizing once. *)
Theorem sanitizeFilename_safe (s : string) :
  String.length (db.sanitizeFilename s) = String.length s /\
  (forall bad, In bad db.invalid ->
     strings.Contains (db.sanitizeFilename s) bad = false) /\
  ((forall bad, In bad db.invalid -> strings.Contains s bad = false) ->
   db.sanitizeFilename s = s) /\
  db.sanitizeFilename (db.sanitizeFilename s) = db.sanitizeFilename s.
Proof.
  split; [|split; [exact (sanitizeFilename_clean s)|]].
  { rewrite sanitizeFilename_map. apply map_bytes_length. }
  rewrite !sanitizeFilename_map. split.
  - intros Hclean. induction s as [|c s IH]; [reflexivity|]. simpl.
    rewrite IH, sanitize_byte_keeps; [reflexivity| |].
    + intros bad Hbad. specialize (Hclean bad Hbad).
      apply invalid_single in Hbad as (a & -> & _).
      rewrite Contains_single in Hclean. simpl in Hclean.
      apply orb_false_iff in Hclean as [Hc _].
      destruct (String.eqb_spec (String a "") (String c "")) as [[= ->]|]; [|reflexivity].
      now rewrite Ascii.eqb_refl in Hc.
    + intros bad Hbad. specialize (Hclean bad Hbad).
      pose proof Hbad as Hbad'. apply invalid_single in Hbad' as (a & -> & _).
      rewrite Contains_single in *. simpl in Hclean.
      now apply orb_false_iff in Hclean as [_ Hs].
  - rewrite map_bytes_compose. apply map_bytes_ext, sanitize_byte_idem.
Qed.

(** X21.  [BackupValue] has nothing to back up, and says so by an empty
    path without an error and without a call to the file system, whenever
    the value cannot be read: on a closed client, for the empty key, for a
    key that is not stored, and for a stored value that cannot be read. *)
Theorem BackupValue_nothing_to_back_up (w : os.World) (c : db.DBClient)
    (key backupDir : string) :
  (db.db c = None \/ key = "" \/
   exists store, db.db c = Some store /\
     (badger.Get store key = None \/
      exists e, badger.Get store key = Some e /\ badger.stored e = None)) ->
  db.BackupValue w c key backupDir = (w, Ok "").
Proof.
  unfold db.BackupValue, db.GetValue, badger.View_Get, badger.ValueCopy.
  intros [Hdb|[->|(store & Hdb & [Hget|(e & Hget & He)])]]; rewrite ?Hdb.
  - reflexivity.
  - destruct (db.db c); reflexivity.
  - destruct (String.eqb key ""); [reflexivity|].
    destruct (badger.reserved key || badger.oversized key); [reflexivity|].
    now rewrite Hget.
  - destruct (String.eqb key ""); [reflexivity|].
    destruct (badger.reserved key || badger.oversized key); [reflexivity|].
    now rewrite Hget, He.
Qed.

(** X22.  When [BackupValue] reports a backup file for a value it could
    read, it has made the backup directory and then written one file that
    holds that value; the file lies in the backup directory under a name
    that starts with the sanitized key and that holds none of the invalid
    characters (a path separator among them) unless the time stamp does. *)
Theorem BackupValue_writes_safe_name (w w' : os.World) (c : db.DBClient)
    (key backupDir path : string) (val : list byte) :
  db.GetValue c key = Ok val ->
  db.BackupValue w c key backupDir = (w', Ok path) ->
  exists w1 name,
    os.MkdirAll w backupDir 493 = (w1, None) /\
    os.WriteFile w1 path val 420 = (w', None) /\
    path = os.Join backupDir name /\
    String.prefix (db.sanitizeFilename key) name = true /\
    forall bad, In bad db.invalid ->
      strings.Contains (os.Now_Format w1 "20060102-150405") bad = false ->
      strings.Contains name bad = false.
Proof.
  unfold db.BackupValue. intros ->.
  destruct (os.MkdirAll w backupDir 493) as [w1 [cause|]] eqn:Hdir; [discriminate|].
  destruct (os.WriteFile w1 _ val 420) as [w2 [cause|]] eqn:Hfile; [discriminate|].
  intros [= <- <-]. eexists w1, _. repeat split; [exact Hfile| |].
  - generalize (db.sanitizeFilename key). induction s as [|a s IH]; [reflexivity|].
    simpl. destruct (ascii_dec a a); [exact IH|contradiction].
  - intros bad Hbad Hstamp.
    pose proof (sanitizeFilename_clean key bad Hbad) as Hsafe.
    apply invalid_single in Hbad as (a & -> & Ha).
    rewrite !Contains_single_app, Hsafe, Hstamp.
    rewrite !Contains_single. simpl.
    repeat match goal with
           | |- context [Ascii.eqb a ?c] =>
             destruct (Ascii.eqb_spec a c) as [->|];
               [contradiction Ha; reflexivity|]
           end.
    reflexivity.
Qed.

End BackupProperties.

(** ** The commands of the screens *)

Section CommandProperties.
Context `{HO : badger.Host} `{OS : os.Host} `{LO : locale.Localizer}.

(** a save from the detail screen whose backup fails does not write *)
Lemma saveValueCmd_backup_failure (w w' : os.World)
    (m : ui.DetailModel) (e : db.backup_error) :
  config.AutoBackupOnWrite (config.DB (ui.dm_cfg m)) = true ->
  db.BackupValue w (ui.dm_dbClient m) (ui.key m)
    (config.BackupPath (config.DB (ui.dm_cfg m))) = (w', Err e) ->
  ui.saveValueCmd w m =
    (w', ui.dm_dbClient m,
     {| ui.Op := "save"; ui.Message := "";
        ui.Err_ := Some (ui.ErrBackupFailed e) |}).
Proof.
  intros Hauto Hbackup. unfold ui.saveValueCmd. now rewrite Hauto, Hbackup.
Qed.

(** X23.  With automatic backups on, a save from the detail screen of a key
    that has a readable value writes to the store only after the old value
    is safe.  When the backup directory cannot be made or the backup file
    cannot be written, nothing is stored and the message carries the backup
    error.  When the file system takes the backup, the backup file holds the
    old value, the message is the success message, and a read of the key
    gives the bytes of the new text. *)
Theorem saveValueCmd_backs_up_before_write (w w1 : os.World)
    (m : ui.DetailModel) (store : badger.DB) (old : list byte) :
  let dir := config.BackupPath (config.DB (ui.dm_cfg m)) in
  let name := db.sanitizeFilename (ui.key m) +:+ "_" +:+
              os.Now_Format w1 "20060102-150405" +:+ ".bak" in
  config.AutoBackupOnWrite (config.DB (ui.dm_cfg m)) = true ->
  db.db (ui.dm_dbClient m) = Some store ->
  db.GetValue (ui.dm_dbClient m) (ui.key m) = Ok old ->
  (forall cause, os.MkdirAll w dir 493 = (w1, Some cause) ->
     (ui.saveValueCmd w m).1.2 = ui.dm_dbClient m /\
     ui.Err_ (ui.saveValueCmd w m).2 =
       Some (ui.ErrBackupFailed (db.ErrBackupDir cause))) /\
  (forall w2 cause, os.MkdirAll w dir 493 = (w1, None) ->
     os.WriteFile w1 (os.Join dir name) old 420 = (w2, Some cause) ->
     (ui.saveValueCmd w m).1.2 = ui.dm_dbClient m /\
     ui.Err_ (ui.saveValueCmd w m).2 =
       Some (ui.ErrBackupFailed (db.ErrBackupWrite cause))) /\
  (forall w2, os.MkdirAll w dir 493 = (w1, None) ->
     os.WriteFile w1 (os.Join dir name) old 420 = (w2, None) ->
     (ui.saveValueCmd w m).1.1 = w2 /\
     (ui.saveValueCmd w m).2 =
       {| ui.Op := "save"; ui.Message := locale.T "save_success";
          ui.Err_ := None |} /\
     db.GetValue (ui.saveValueCmd w m).1.2 (ui.key m) =
       Ok (list_byte_of_string (ui.textarea_Value m))).
Proof.
  intros dir name Hauto Hdb Hold.
  pose proof (GetValue_Ok_accepted _ _ _ Hold) as Hkey.
  split; [|split].
  - intros cause Hdir.
    rewrite (saveValueCmd_backup_failure w w1 m (db.ErrBackupDir cause) Hauto);
      [split; reflexivity|].
    unfold db.BackupValue. rewrite Hold. fold dir. now rewrite Hdir.
  - intros w2 cause Hdir Hfile.
    rewrite (saveValueCmd_backup_failure w w2 m (db.ErrBackupWrite cause) Hauto);
      [split; reflexivity|].
    unfold db.BackupValue. rewrite Hold. fold dir. rewrite Hdir. fold name.
    now rewrite Hfile.
  - intros w2 Hdir Hfile.
    destruct (GetValue_SetValue (ui.dm_dbClient m) store (ui.key m)
                (list_byte_of_string (ui.textarea_Value m)) 0 Hdb Hkey)
      as (Hok & _ & Hget).
    specialize (Hget (Z.le_refl 0)).
    unfold ui.saveValueCmd, db.BackupValue. rewrite Hauto, Hold.
    fold dir. rewrite Hdir. fold name. rewrite Hfile.
    destruct (db.SetValue _ _ _ _) as [c' err]. simpl in *. subst err.
    repeat split. exact Hget.
Qed.

(** X24.  An insert with an empty key is refused before anything is
    touched: no backup, no write.  An insert on an open store with a key
    that the store accepts stores the bytes of the value and reports
    success whatever becomes of the backup, whose error is ignored.  An
    insert with a key that the store refuses (a key under the reserved
    prefix, a key of more than 65000 bytes) reports the error of the store
    and stores nothing.  With automatic backups off the file system is not
    touched. *)
Theorem saveCmd_refuses_empty_key_else_writes (w : os.World) (m : ui.InsertModel) :
  (ui.keyInput_Value m = "" ->
   ui.saveCmd w m =
     (w, ui.im_dbClient m,
      {| ui.Op := "insert"; ui.Message := ""; ui.Err_ := Some ui.ErrKeyEmpty |})) /\
  (ui.keyInput_Value m <> "" ->
   forall store, db.db (ui.im_dbClient m) = Some store ->
     (badger.modify_error (ui.keyInput_Value m) = None ->
      (ui.saveCmd w m).2 =
        {| ui.Op := "insert"; ui.Message := locale.T "save_success";
           ui.Err_ := None |} /\
      db.GetValue (ui.saveCmd w m).1.2 (ui.keyInput_Value m) =
        Ok (list_byte_of_string (ui.valueInput_Value m))) /\
     (forall text, badger.modify_error (ui.keyInput_Value m) = Some text ->
      (ui.saveCmd w m).2 =
        {| ui.Op := "insert"; ui.Message := "";
           ui.Err_ := Some (ui.ErrStore (ErrLibrary text)) |} /\
      (ui.saveCmd w m).1.2 = ui.im_dbClient m) /\
     (config.AutoBackupOnWrite (config.DB (ui.im_cfg m)) = false ->
      (ui.saveCmd w m).1.1 = w)).
Proof.
  unfold ui.saveCmd. split.
  - intros ->. reflexivity.
  - intros Hne store Hdb. apply String.eqb_neq in Hne. rewrite Hne.
    split; [|split].
    + intros Hkey.
      destruct (GetValue_SetValue (ui.im_dbClient m) store (ui.keyInput_Value m)
                  (list_byte_of_string (ui.valueInput_Value m)) 0 Hdb Hkey)
        as (Hok & _ & Hget).
      specialize (Hget (Z.le_refl 0)).
      destruct (db.SetValue _ _ _ _) as [c' err]. simpl in *. subst err. simpl.
      split; [reflexivity|exact Hget].
    + intros text Hkey.
      rewrite (SetValue_refused (ui.im_dbClient m) store _ text _ 0 Hdb Hkey).
      split; reflexivity.
    + intros ->. destruct (db.SetValue _ _ _ _) as [c' [err|]]; reflexivity.
Qed.

End CommandProperties.

(** ** The list of recent stores *)

Section ConfigProperties.

Lemma drop_path_loop (path : string) (l acc : list string) :
  foldl (fun newRecent p =>
           if negb (String.eqb p path) then newRecent ++ [p] else newRecent)
        acc l =
  acc ++ List.filter (fun p => negb (String.eqb p path)) l.
Proof.
  revert acc. induction l as [|p l IH]; intros acc; simpl; [now rewrite app_nil_r|].
  rewrite IH. destruct (negb (String.eqb p path)); [|reflexivity].
  now rewrite <- app_assoc.
Qed.

(** X25.  [AddRecentDB] puts the path first, keeps the other paths in their
    order without the path itself, and keeps at most five; a list without
    repeats stays without repeats; the rest of the configuration is not
    changed. *)
Theorem AddRecentDB_most_recent_first (c : config.Config) (path : string) :
  let c' := config.AddRecentDB c path in
  config.GetRecentDBs c' =
    take 5 (path :: List.filter (fun p => negb (String.eqb p path))
                      (config.GetRecentDBs c)) /\
  head (config.GetRecentDBs c') = Some path /\
  (length (config.GetRecentDBs c') <= 5)%nat /\
  (NoDup (config.GetRecentDBs c) -> NoDup (config.GetRecentDBs c')) /\
  config.with_RecentDBs c' (config.GetRecentDBs c) = config.with_RecentDBs c (config.GetRecentDBs c).
Proof.
  intros c'. subst c'. unfold config.AddRecentDB, config.GetRecentDBs. simpl.
  rewrite drop_path_loop. simpl.
  set (others := List.filter (fun p => negb (String.eqb p path)) (config.RecentDBs c)).
  assert (Hcut : (if (5 <? S (length others))%nat
                  then path :: take 4 others else path :: others) =
                 path :: take 4 others).
  { destruct (5 <? S (length others))%nat eqn:Hlen; [reflexivity|].
    apply Nat.ltb_ge in Hlen. f_equal. symmetry. apply take_ge. lia. }
  rewrite Hcut. repeat split.
  - simpl. rewrite length_take. lia.
  - intros Hnodup. change (path :: take 4 others) with (take 5 (path :: others)).
    apply (sublist_NoDup _ (path :: others)); [|apply sublist_take].
    apply NoDup_cons. split.
    + intros Hin. apply list_elem_of_In, filter_In in Hin as [_ Hne].
      now rewrite String.eqb_refl in Hne.
    + apply (sublist_NoDup _ (config.RecentDBs c)); [exact Hnodup|apply filter_sublist].
Qed.

End ConfigProperties.

(** ** Worked examples of the further properties *)

Section FurtherWorkedProperties.

Lemma users_readable : readable sample.users.
Proof. repeat constructor; eexists; reflexivity. Qed.

Lemma Open_once_witness :
  let c' := (db.Open (H := sample_os.opening) db.NewDBClient "/data").1 in
  db.IsOpen c' = true /\ db.GetPath c' = "/data" /\
  db.Open (H := sample_os.opening) c' "/other" = (c', Some ErrAlreadyOpen).
Proof.
  destruct (proj1 (Open_once (HO := sample_os.opening) db.NewDBClient "/data") eq_refl)
    as (_ & Hopen & Hpath & Hlocked).
  exact (conj Hopen (conj Hpath (Hlocked "/other"))).
Defined.

(** closing a store that fails to close *)
Lemma Close_then_not_open_witness :
  let c := sample.client sample.users in
  (db.Close (H := sample_os.opening) c).2 = Some (ErrLibrary "sync failed") /\
  db.GetPath (db.Close (H := sample_os.opening) c).1 = "" /\
  db.GetValue (db.Close (H := sample_os.opening) c).1 "a1" = Err ErrNotOpen.
Proof.
  intros c.
  destruct (Close_then_not_open (HO := sample_os.opening) (RE := sample.literal)
              c (sample.query "" "prefix" false 10 0) "a1" [] 0)
    as (Herr & _ & _ & Hpath & _ & _ & Hget & _).
  exact (conj (Herr sample.users eq_refl) (conj (Hpath eq_refl) Hget)).
Defined.


(** a delete of a stored key, and a delete under a reserved key *)
Lemma DeleteKey_then_GetValue_witness :
  let c := sample.client sample.users in
  let c' := (db.DeleteKey (H := sample.host) c "a1").1 in
  db.GetValue c' "a1" = Err (ErrLibrary "Key not found") /\
  db.GetValue c' "b" = Ok (list_byte_of_string "z") /\
  db.DeleteKey (H := sample.host) c "!badger!x" =
    (c, Some (ErrLibrary "Key is using a reserved !badger! prefix")).
Proof.
  intros c c'.
  assert (Hother : "b" <> "a1") by discriminate.
  destruct (DeleteKey_then_GetValue (HO := sample.host) c sample.users "a1" eq_refl)
    as (Hdone & _).
  destruct (Hdone eq_refl) as (_ & Hget & Hframe & _).
  destruct (DeleteKey_then_GetValue (HO := sample.host) c sample.users "!badger!x"
              eq_refl) as (_ & Hrefused).
  split; [exact Hget|]. split; [|exact (Hrefused _ eq_refl)].
  fold c' in Hframe. rewrite (Hframe "b" Hother). reflexivity.
Defined.

Lemma writes_keep_store_ok_witness :
  store_ok (db.SetValue (H := sample.host) (sample.client sample.users) "a0"
              (list_byte_of_string "v") 0).1.
Proof.
  exact (proj1 (writes_keep_store_ok (HO := sample.host) (sample.client sample.users)
                  "a0" (list_byte_of_string "v") 0
                  (conj users_ascending users_readable))).
Defined.

Lemma ListKeys_no_more_means_all_witness :
  let q := sample.query "a" "prefix" false 10 0 in
  [sample.row "a1" "x"; sample.row "a2" "y"] =
  rows_of q (skip_offset q 0
               (List.filter (matches (RE := sample.literal) q
                               (compiled (RE := sample.literal) q))
                  (cursor q sample.users))).
Proof.
  exact (ListKeys_no_more_means_all (RE := sample.literal)
           (sample.query "a" "prefix" false 10 0) (sample.client sample.users)
           sample.users [sample.row "a1" "x"; sample.row "a2" "y"]
           eq_refl users_ascending eq_refl).
Defined.

Lemma pages_concatenate_witness :
  [sample.row "a1" "x"; sample.row "a2" "y"] =
  [sample.row "a1" "x"] ++ [sample.row "a2" "y"].
Proof.
  assert (Hoff : 0 <= 0) by lia.
  exact (pages_concatenate (RE := sample.literal)
           (sample.query "" "prefix" false 1 0) (sample.client sample.users)
           sample.users 0 1
           [sample.row "a1" "x"] [sample.row "a2" "y"]
           [sample.row "a1" "x"; sample.row "a2" "y"] true true true
           eq_refl users_ascending users_readable eq_refl Hoff eq_refl
           eq_refl eq_refl eq_refl).
Defined.

Lemma ListKeys_rows_in_key_order_witness :
  NoDup (db.Key <$> [sample.row "b" "z"; sample.row "a2" "y"; sample.row "a1" "x"]).
Proof.
  exact (proj2 (ListKeys_rows_in_key_order (RE := sample.literal)
                  (sample.query "" "prefix" true 10 0) (sample.client sample.users)
                  sample.users
                  [sample.row "b" "z"; sample.row "a2" "y"; sample.row "a1" "x"] false
                  eq_refl users_ascending eq_refl)).
Defined.

Lemma ListKeys_rows_are_stored_matches_witness :
  let q := sample.query "2" "substring" false 10 0 in
  matchKey (RE := sample.literal) q (compiled (RE := sample.literal) q) "a2" = true.
Proof.
  assert (Hin : sample.row "a2" "y" ∈ [sample.row "a2" "y"]) by (left).
  exact (proj1 (ListKeys_rows_are_stored_matches (RE := sample.literal)
                  (sample.query "2" "substring" false 10 0)
                  (sample.client sample.users) sample.users
                  [sample.row "a2" "y"] false (sample.row "a2" "y")
                  eq_refl users_ascending eq_refl Hin)).
Defined.

Lemma ascending_query_complete_witness :
  let q := sample.query "a" "substring" false 10 1 in
  [sample.row "a2" "y"] =
  take (Z.to_nat (Z.max 1 10))
    (rows_of q (drop (Z.to_nat 1)
                  (List.filter (matches (RE := sample.literal) q
                                  (compiled (RE := sample.literal) q))
                     sample.users))).
Proof.
  exact (ascending_query_complete (RE := sample.literal)
           (sample.query "a" "substring" false 10 1) (sample.client sample.users)
           sample.users [sample.row "a2" "y"] false
           eq_refl eq_refl eq_refl users_ascending eq_refl).
Defined.

Lemma descending_reverses_ascending_witness :
  [sample.row "b" "z"; sample.row "a2" "y"; sample.row "a1" "x"] =
  rev [sample.row "a1" "x"; sample.row "a2" "y"; sample.row "b" "z"].
Proof.
  assert (Hoff : 0 <= 0) by lia.
  assert (Hlim : Z.of_nat (length sample.users) <= 10) by (vm_compute; discriminate).
  exact (descending_reverses_ascending (RE := sample.literal)
           (sample.query "" "prefix" false 10 0) (sample.client sample.users)
           sample.users
           [sample.row "a1" "x"; sample.row "a2" "y"; sample.row "b" "z"]
           [sample.row "b" "z"; sample.row "a2" "y"; sample.row "a1" "x"]
           false false
           eq_refl users_ascending eq_refl Hoff Hlim
           (or_introl (conj eq_refl eq_refl)) eq_refl eq_refl).
Defined.

Lemma prefix_descending_exact_key_only_witness :
  db.Key (sample.row "a" "v") = "a".
Proof.
  assert (Hasc : badger.ascending [sample.entry "a" "v"; sample.entry "a1" "x"])
    by (repeat constructor).
  assert (Hpat : "a" <> "") by discriminate.
  assert (Hin : sample.row "a" "v" ∈ [sample.row "a" "v"]) by (left).
  exact (prefix_descending_exact_key_only (RE := sample.literal)
           (sample.query "a" "prefix" true 10 0)
           (sample.client [sample.entry "a" "v"; sample.entry "a1" "x"])
           [sample.entry "a" "v"; sample.entry "a1" "x"]
           [sample.row "a" "v"] false (sample.row "a" "v")
           eq_refl eq_refl eq_refl Hpat eq_refl Hasc eq_refl Hin).
Defined.

Lemma preview_text_bounded_witness :
  (String.length (db.preview 3 (list_byte_of_string "hello")) <= Z.to_nat 3 + 3)%nat.
Proof.
  exact (proj1 (preview_text_bounded 3 (list_byte_of_string "hello") eq_refl)).
Defined.

Lemma isBinary_first_512_only_witness :
  db.isBinary (replicate 512 x01 ++ [x00]) = db.isBinary (replicate 512 x01).
Proof.
  exact (isBinary_first_512_only (replicate 512 x01 ++ [x00]) (replicate 512 x01)
           eq_refl).
Defined.

End FurtherWorkedProperties.

Section FurtherWorkedSessions.

(** a commit on a session that does not exist is answered; an upload of
    length -1 is not *)
Lemma handleLine_one_response_witness :
  (exists h' resp,
     api.handleLine (RE := sample.literal) (HO := sample.host)
       (B64 := sample.plain) (JS := sample.json) (RT := sample.memory)
       sample.handler (list_byte_of_string "commit") = Done h' /\
     api.out h' = api.out sample.handler ++ [resp] /\
     api.rs_ID resp = "8") /\
  api.handleLine (RE := sample.literal) (HO := sample.host)
    (B64 := sample.plain) (JS := sample.json) (RT := sample.memory)
    sample.handler (list_byte_of_string "put") = Panic.
Proof.
  assert (Hkind : ~ unallocatable_upload (JS := sample.json) (RT := sample.memory)
                      (list_byte_of_string "commit")).
  { intros (_ & Hty & _). vm_compute in Hty. discriminate. }
  assert (Hneg : -1 < 0) by lia.
  destruct (handleLine_one_response (RE := sample.literal) (HO := sample.host)
              (B64 := sample.plain) (JS := sample.json) (RT := sample.memory)
              sample.handler (list_byte_of_string "commit"))
    as (_ & Hanswer & _).
  destruct (Hanswer Hkind) as (h' & resp & Hline & Hout & Hid & _).
  destruct (handleLine_one_response (RE := sample.literal) (HO := sample.host)
              (B64 := sample.plain) (JS := sample.json) (RT := sample.memory)
              sample.handler (list_byte_of_string "put"))
    as (_ & _ & Hpanic).
  split.
  - exists h', resp. exact (conj Hline (conj Hout Hid)).
  - exact (Hpanic _ eq_refl eq_refl eq_refl Hneg).
Defined.

Lemma handleLine_frame_witness :
  exists h',
    api.handleLine (RE := sample.literal) (HO := sample.host)
      (B64 := sample.plain) (JS := sample.json) (RT := sample.memory)
      sample.handler (list_byte_of_string "bogus") = Done h' /\
    api.chunkBuffer h' = api.chunkBuffer sample.handler.
Proof.
  assert (Hkind : ~ In "bogus" [api.TypePutValue; api.TypePutChunk; api.TypePutCommit]).
  { vm_compute. intros [H|[H|[H|[]]]]; discriminate. }
  destruct (handleLine_frame (RE := sample.literal) (HO := sample.host)
              (B64 := sample.plain) (JS := sample.json) (RT := sample.memory)
              sample.handler (list_byte_of_string "bogus")) as [Hframe Hanswered].
  destruct (Hanswered (or_intror Hkind)) as [h' Hline].
  exists h'. split; [exact Hline|].
  exact (proj2 (Hframe h' Hline) (or_intror Hkind)).
Defined.

(** the chunks of two sessions, interleaved, one of them for a session that
    does not exist *)
Lemma put_chunks_per_session_witness :
  let h := api.with_chunkBuffer sample.handler
             {[ "2" := list_byte_of_string "he" ]} in
  let chunks := [sample_os.chunk "2" "l"; sample_os.chunk "3" "x";
                 sample_os.chunk "2" "lo"] in
  api.chunkBuffer (put_chunks (B64 := sample.plain) (JS := sample.json) h chunks).1
    !! "2" = Some (list_byte_of_string "hello") /\
  api.chunkBuffer (put_chunks (B64 := sample.plain) (JS := sample.json) h chunks).1
    !! "3" = None.
Proof.
  destruct (put_chunks_per_session (B64 := sample.plain) (JS := sample.json)
              [sample_os.chunk "2" "l"; sample_os.chunk "3" "x";
               sample_os.chunk "2" "lo"]
              (api.with_chunkBuffer sample.handler
                 {[ "2" := list_byte_of_string "he" ]}) "2")
    as (Hlive & _).
  destruct (put_chunks_per_session (B64 := sample.plain) (JS := sample.json)
              [sample_os.chunk "2" "l"; sample_os.chunk "3" "x";
               sample_os.chunk "2" "lo"]
              (api.with_chunkBuffer sample.handler
                 {[ "2" := list_byte_of_string "he" ]}) "3")
    as (_ & Hdead & _).
  split; [exact (Hlive (list_byte_of_string "he") eq_refl)|exact (Hdead eq_refl)].
Defined.

(** a commit while no store is open *)
Lemma put_commit_consumes_session_witness :
  let h := api.with_chunkBuffer (api.NewHandler db.NewDBClient)
             {[ "2" := list_byte_of_string "he" ]} in
  let commit := sample.PutCommit {| api.cm_ID := "2"; api.cm_Key := "k"; api.cm_TTL := 0 |} in
  (api.handlePutCommit (HO := sample.host) (JS := sample.json) h commit).2 =
    Err ErrNotOpen /\
  (api.handlePutCommit (HO := sample.host) (JS := sample.json)
     (api.handlePutCommit (HO := sample.host) (JS := sample.json) h commit).1 commit).2 =
    Err (ErrUnknownSession "2").
Proof.
  assert (Hlive : is_Some (({[ "2" := list_byte_of_string "he" ]}
                            : gmap string (list byte)) !! "2")) by (eexists; reflexivity).
  exact (proj2 (proj2 (put_commit_consumes_session (HO := sample.host) (JS := sample.json)
                         (api.with_chunkBuffer (api.NewHandler db.NewDBClient)
                            {[ "2" := list_byte_of_string "he" ]})
                         (sample.PutCommit {| api.cm_ID := "2"; api.cm_Key := "k";
                                              api.cm_TTL := 0 |})
                         _ eq_refl)) eq_refl Hlive).
Defined.

Lemma sanitizeFilename_safe_witness :
  strings.Contains (db.sanitizeFilename "user:1/a") "/" = false /\
  db.sanitizeFilename "plain-key" = "plain-key".
Proof.
  destruct (sanitizeFilename_safe "user:1/a") as (_ & Hsafe & _).
  destruct (sanitizeFilename_safe "plain-key") as (_ & _ & Hkeep & _).
  split.
  - apply Hsafe. unfold db.invalid. simpl. tauto.
  - apply Hkeep. intros bad Hbad. unfold db.invalid in Hbad. simpl in Hbad.
    destruct Hbad as [<-|[<-|[<-|[<-|[<-|[<-|[<-|[<-|[<-|[]]]]]]]]]]; reflexivity.
Defined.

Lemma BackupValue_nothing_to_back_up_witness :
  db.BackupValue (OS := sample_os.disk) [] (sample.client sample.users) "zz" "/bak" =
    ([], Ok "").
Proof.
  apply (BackupValue_nothing_to_back_up (OS := sample_os.disk)).
  right. right. exists sample.users. split; [reflexivity|]. left. reflexivity.
Defined.

Lemma BackupValue_writes_safe_name_witness :
  exists w1 name,
    os.MkdirAll (Host := sample_os.disk) [] "/bak" 493 = (w1, None) /\
    os.WriteFile (Host := sample_os.disk) w1 "/bak/a_1_20240102-030405.bak"
      (list_byte_of_string "x") 420 =
      ([sample_os.CallMkdirAll "/bak" 493;
        sample_os.CallWriteFile "/bak/a_1_20240102-030405.bak"
          (list_byte_of_string "x") 420], None) /\
    strings.Contains name "/" = false.
Proof.
  destruct (BackupValue_writes_safe_name (OS := sample_os.disk) []
              [sample_os.CallMkdirAll "/bak" 493;
               sample_os.CallWriteFile "/bak/a_1_20240102-030405.bak"
                 (list_byte_of_string "x") 420]
              (sample.client [sample.entry "a/1" "x"]) "a/1" "/bak"
              "/bak/a_1_20240102-030405.bak" (list_byte_of_string "x")
              eq_refl eq_refl)
    as (w1 & name & Hdir & Hfile & _ & _ & Hsafe).
  exists w1, name. repeat split; [exact Hdir|exact Hfile|].
  apply Hsafe; [unfold db.invalid; simpl; tauto|reflexivity].
Defined.

Lemma saveValueCmd_backs_up_before_write_witness :
  let m := {| ui.dm_dbClient := sample.client sample.users;
              ui.dm_cfg := sample_os.backing_up_to "/bak";
              ui.key := "a1"; ui.textarea_Value := "new" |} in
  let blocked := {| ui.dm_dbClient := sample.client sample.users;
                    ui.dm_cfg := sample_os.backing_up_to "/ro";
                    ui.key := "a1"; ui.textarea_Value := "new" |} in
  (ui.saveValueCmd (HO := sample.host) (OS := sample_os.disk)
     (LO := sample_os.plain_text) [] m).1.1 =
    [sample_os.CallMkdirAll "/bak" 493;
     sample_os.CallWriteFile "/bak/a1_20240102-030405.bak"
       (list_byte_of_string "x") 420] /\
  db.GetValue (ui.saveValueCmd (HO := sample.host) (OS := sample_os.disk)
                 (LO := sample_os.plain_text) [] m).1.2 "a1" =
    Ok (list_byte_of_string "new") /\
  (ui.saveValueCmd (HO := sample.host) (OS := sample_os.disk)
     (LO := sample_os.plain_text) [] blocked).1.2 = sample.client sample.users.
Proof.
  intros m blocked.
  destruct (saveValueCmd_backs_up_before_write (HO := sample.host)
              (OS := sample_os.disk) (LO := sample_os.plain_text)
              [] [sample_os.CallMkdirAll "/bak" 493]
              m sample.users (list_byte_of_string "x") eq_refl eq_refl eq_refl)
    as (_ & _ & Hdone).
  destruct (Hdone _ eq_refl eq_refl) as (Hworld & _ & Hget).
  destruct (saveValueCmd_backs_up_before_write (HO := sample.host)
              (OS := sample_os.disk) (LO := sample_os.plain_text)
              [] [] blocked sample.users (list_byte_of_string "x")
              eq_refl eq_refl eq_refl)
    as (Hblocked & _).
  destruct (Hblocked "read-only file system" eq_refl) as (Hclient & _).
  exact (conj Hworld (conj Hget Hclient)).
Defined.

(** an insert under a stored key, under a reserved key, and under no key *)
Lemma saveCmd_refuses_empty_key_else_writes_witness :
  let m := {| ui.im_dbClient := sample.client sample.users;
              ui.im_cfg := sample_os.backing_up_to "/ro";
              ui.keyInput_Value := "a1"; ui.valueInput_Value := "new" |} in
  let inner := {| ui.im_dbClient := sample.client sample.users;
                  ui.im_cfg := sample_os.backing_up_to "/ro";
                  ui.keyInput_Value := "!badger!x"; ui.valueInput_Value := "new" |} in
  db.GetValue (ui.saveCmd (HO := sample.host) (OS := sample_os.disk)
                 (LO := sample_os.plain_text) [] m).1.2 "a1" =
    Ok (list_byte_of_string "new") /\
  (ui.saveCmd (HO := sample.host) (OS := sample_os.disk)
     (LO := sample_os.plain_text) [] inner).1.2 = sample.client sample.users /\
  (ui.saveCmd (HO := sample.host) (OS := sample_os.disk)
     (LO := sample_os.plain_text) []
     {| ui.im_dbClient := sample.client sample.users;
        ui.im_cfg := sample_os.backing_up_to "/ro";
        ui.keyInput_Value := ""; ui.valueInput_Value := "new" |}).1.2 =
    sample.client sample.users.
Proof.
  intros m inner.
  assert (Hkey : ui.keyInput_Value m <> "") by discriminate.
  assert (Hinner : ui.keyInput_Value inner <> "") by discriminate.
  destruct (proj2 (saveCmd_refuses_empty_key_else_writes (HO := sample.host)
                     (OS := sample_os.disk) (LO := sample_os.plain_text) [] m)
              Hkey sample.users eq_refl) as (Hdone & _).
  destruct (proj2 (saveCmd_refuses_empty_key_else_writes (HO := sample.host)
                     (OS := sample_os.disk) (LO := sample_os.plain_text) [] inner)
              Hinner sample.users eq_refl) as (_ & Hrefused & _).
  split; [exact (proj2 (Hdone eq_refl))|].
  split; [exact (proj2 (Hrefused _ eq_refl))|].
  rewrite (proj1 (saveCmd_refuses_empty_key_else_writes (HO := sample.host)
                    (OS := sample_os.disk) (LO := sample_os.plain_text) []
                    {| ui.im_dbClient := sample.client sample.users;
                       ui.im_cfg := sample_os.backing_up_to "/ro";
                       ui.keyInput_Value := ""; ui.valueInput_Value := "new" |})
             eq_refl).
  reflexivity.
Defined.

Lemma AddRecentDB_most_recent_first_witness :
  let c := config.with_RecentDBs config.DefaultConfig
             ["/a"; "/b"; "/c"; "/d"; "/e"] in
  config.GetRecentDBs (config.AddRecentDB c "/c") = ["/c"; "/a"; "/b"; "/d"; "/e"] /\
  config.GetRecentDBs (config.AddRecentDB c "/f") = ["/f"; "/a"; "/b"; "/c"; "/d"] /\
  NoDup (config.GetRecentDBs (config.AddRecentDB c "/f")).
Proof.
  intros c.
  destruct (AddRecentDB_most_recent_first c "/c") as (Hc & _).
  destruct (AddRecentDB_most_recent_first c "/f") as (Hf & _ & _ & Hnodup & _).
  split; [exact Hc|]. split; [exact Hf|].
  apply Hnodup. subst c. simpl.
  repeat (apply NoDup_cons; split;
          [intros Hin; repeat (apply elem_of_cons in Hin as [Hin|Hin];
                               [discriminate|]); inversion Hin|]).
  apply NoDup_nil_2.
Defined.

End FurtherWorkedSessions.
